(** * Attitude estimation module (flight/Modules/Attitude/revolution/attitude.c)

    A shallow embedding of the sensor acquisition loop and of the
    complementary filter, together with the properties of the module's
    specification.

    The C code computes on [float].  The embedding is written over an
    interface of the arithmetic operations the code uses, and that
    interface is read in IEEE 754 single precision, through the Standard
    Library's [SpecFloat] with [prec = 24] and [emax = 128]: this is what
    the machine computes, rounding, NaN and infinities included, and it
    evaluates. *)

From Stdlib Require Import ZArith List Bool Lia QArith.
From Stdlib Require Import SpecFloat.
Import ListNotations.

Set Implicit Arguments.
Close Scope Q_scope.

(** ** Machine integers *)

Module MachInt.
Local Open Scope Z_scope.

(** Wrap-around of a signed [w]-bit integer. *)
Definition wrap_signed (w : Z) (z : Z) : Z :=
  (z + 2 ^ (w - 1)) mod 2 ^ w - 2 ^ (w - 1).

Definition wrap_unsigned (w : Z) (z : Z) : Z := z mod 2 ^ w.

Definition int32 := wrap_signed 32.
Definition int16 := wrap_signed 16.
Definition uint32 := wrap_unsigned 32.

Definition in_int16 (z : Z) : Prop := -32768 <= z <= 32767.

End MachInt.

(** ** The arithmetic of [float] *)

(** The operations the module applies to [float] values.  [of_int] is the
    conversion of an integer operand, [of_lit] the value of a decimal
    literal, [fltb] is [<] and [fneb] is [!=]. *)
Class FloatArith (F : Type) := {
  fadd : F -> F -> F;
  fsub : F -> F -> F;
  fmul : F -> F -> F;
  fdiv : F -> F -> F;
  fneg : F -> F;
  fsqrt : F -> F;
  fabs : F -> F;
  fltb : F -> F -> bool;
  fneb : F -> F -> bool;
  of_int : Z -> F;
  of_lit : Q -> F
}.

Declare Scope float_scope.
Delimit Scope float_scope with flt.
Infix "+" := fadd : float_scope.
Infix "-" := fsub : float_scope.
Infix "*" := fmul : float_scope.
Infix "/" := fdiv : float_scope.
Notation "- x" := (fneg x) : float_scope.
Infix "<?" := fltb : float_scope.
Infix "!=?" := fneb (at level 70) : float_scope.

(** *** IEEE 754 single precision *)

Module Binary32.
Definition prec : Z := 24.
Definition emax : Z := 128.

Definition t := spec_float.

Definition add : t -> t -> t := SFadd prec emax.
Definition sub : t -> t -> t := SFsub prec emax.
Definition mul : t -> t -> t := SFmul prec emax.
Definition div : t -> t -> t := SFdiv prec emax.
Definition sqrt : t -> t := SFsqrt prec emax.
Definition ltb : t -> t -> bool := SFltb.
Definition leb : t -> t -> bool := SFleb.
Definition eqb : t -> t -> bool := SFeqb.

(** [x != y] holds when [x == y] does not, so it holds when either is NaN. *)
Definition neb (x y : t) : bool := negb (SFeqb x y).

(** An integer converted to [float]: rounded to nearest, ties to even. *)
Definition of_Z (z : Z) : t := binary_normalize prec emax z 0 false.

(** The [float] nearest to the rational [n / d]. *)
Definition of_ratio (s : bool) (n d : positive) : t :=
  let '(mz, ez, lz) := SFdiv_core_binary prec emax (Zpos n) 0 (Zpos d) 0 in
  binary_round_aux prec emax s mz ez lz.

Definition of_Q (q : Q) : t :=
  match Qnum q with
  | Z0 => S754_zero false
  | Zpos n => of_ratio false n (Qden q)
  | Zneg n => of_ratio true n (Qden q)
  end.

Definition zero : t := S754_zero false.
Definition nan : t := S754_nan.

Definition is_nan (x : t) : bool :=
  match x with S754_nan => true | _ => false end.

Definition is_zero (x : t) : bool :=
  match x with S754_zero _ => true | _ => false end.

Definition is_finite (x : t) : bool :=
  match x with S754_zero _ | S754_finite _ _ _ => true | _ => false end.
End Binary32.

#[export] Instance binary32 : FloatArith Binary32.t := {
  fadd := Binary32.add;
  fsub := Binary32.sub;
  fmul := Binary32.mul;
  fdiv := Binary32.div;
  fneg := SFopp;
  fsqrt := Binary32.sqrt;
  fabs := SFabs;
  fltb := Binary32.ltb;
  fneb := Binary32.neb;
  of_int := Binary32.of_Z;
  of_lit := Binary32.of_Q
}.

(** ** The module *)

Section Attitude.
Context (F : Type) {FA : FloatArith F}.
Local Open Scope float_scope.

Definition vec3 : Type := F * F * F.
Definition quat : Type := F * F * F * F.
Definition mat3 : Type := vec3 * vec3 * vec3.
Definition ivec3 : Type := Z * Z * Z.

(** *** UAVObjects, alarms and driver records *)

(** Modelled from the spec: the Accels object of accels.h, which is not part
    of this file; x, y, z and the temperature. *)
Record AccelsData := {
  Accels_x : F; Accels_y : F; Accels_z : F; Accels_temperature : F
}.

(** Modelled from the spec: the Gyros object of gyros.h; x, y, z in deg/s
    and the temperature. *)
Record GyrosData := {
  Gyros_x : F; Gyros_y : F; Gyros_z : F; Gyros_temperature : F
}.

(** Modelled from the spec: the Magnetometer object of magnetometer.h. *)
Record MagnetometerData := { Mag_x : F; Mag_y : F; Mag_z : F }.

(** Modelled from the spec: the AttitudeActual object of attitudeactual.h;
    the quaternion [q1 .. q4] and the Euler angles in degrees. *)
Record AttitudeActualData := {
  q1 : F; q2 : F; q3 : F; q4 : F; Roll : F; Pitch : F; Yaw : F
}.

(** Modelled from the spec: the AttitudeSettings object of
    attitudesettings.h; the gains as [float], the two switches as the truth
    of their [_TRUE] value, the biases and the board rotation as integers. *)
Record AttitudeSettingsData := {
  AccelKp : F; AccelKi : F; YawBiasRate : F; GyroGain : F;
  ZeroDuringArming : bool; BiasCorrectGyro : bool;
  AccelBias : ivec3; GyroBias : ivec3; BoardRotation : ivec3
}.

(** Modelled from the spec: the Armed field of the FlightStatus object of
    flightstatus.h. *)
Inductive FlightStatusArmed :=
  FLIGHTSTATUS_ARMED_DISARMED | FLIGHTSTATUS_ARMED_ARMING | FLIGHTSTATUS_ARMED_ARMED.

Record FlightStatusData := { Armed : FlightStatusArmed }.

(** Modelled from the spec: the severities of an alarm, of the alarm
    library. *)
Inductive alarm :=
  SYSTEMALARMS_ALARM_OK | SYSTEMALARMS_ALARM_WARNING
| SYSTEMALARMS_ALARM_ERROR | SYSTEMALARMS_ALARM_CRITICAL.

(** Modelled from the spec: one entry of the accelerometer FIFO, of the
    BMA180 driver; the fields this file reads. *)
Record pios_bma180_data := {
  bma_x : Z; bma_y : Z; bma_z : Z; bma_temperature : Z
}.

(** Modelled from the spec: one entry of the gyro FIFO, of the MPU6000
    driver; the fields this file reads. *)
Record pios_mpu6000_data := {
  gyro_x : Z; gyro_y : Z; gyro_z : Z; mpu_temperature : Z
}.

(** *** State *)

(** The module's tuning variables ([R] is named [Rot] here). *)
Record tuning := {
  accelKi : F; accelKp : F; yawBiasRate : F; gyroGain : F;
  accelbias : ivec3; Rot : mat3; rotate : Z;
  zero_during_arming : bool; bias_correct_gyro : bool;
  gyro_bias : vec3
}.

(** Everything the two tasks read or write: the tuning variables, the two
    queues, the objects on the telemetry bus, the ATTITUDE alarm, the
    number of strokes of each watchdog flag, and the drivers.  A FIFO is
    the list of the results of the successive calls of its [ReadFifo]
    ([None]: no data); every call after the end of the list finds no data.
    [hmc5883] holds, per tick, the new magnetometer reading if any. *)
Record state := {
  tun : tuning;
  gyroQueue : list GyrosData;
  accelQueue : list AccelsData;
  Accels : AccelsData;
  Gyros : GyrosData;
  Magnetometer : MagnetometerData;
  AttitudeActual : AttitudeActualData;
  AttitudeSettings : AttitudeSettingsData;
  FlightStatus : FlightStatusData;
  alarm_ATTITUDE : alarm;
  wdg_SENSORS : nat;
  wdg_ATTITUDE : nat;
  bma180_fifo : list (option pios_bma180_data);
  mpu6000_fifo : list (option pios_mpu6000_data);
  hmc5883 : list (option ivec3);
  bma180_scale : F;
  mpu6000_scale : F
}.

Definition set_tun (v : tuning) (st : state) : state :=
  {| tun := v; gyroQueue := gyroQueue st; accelQueue := accelQueue st;
     Accels := Accels st; Gyros := Gyros st; Magnetometer := Magnetometer st;
     AttitudeActual := AttitudeActual st;
     AttitudeSettings := AttitudeSettings st;
     FlightStatus := FlightStatus st; alarm_ATTITUDE := alarm_ATTITUDE st;
     wdg_SENSORS := wdg_SENSORS st; wdg_ATTITUDE := wdg_ATTITUDE st;
     bma180_fifo := bma180_fifo st; mpu6000_fifo := mpu6000_fifo st;
     hmc5883 := hmc5883 st; bma180_scale := bma180_scale st;
     mpu6000_scale := mpu6000_scale st |}.

Definition set_gyroQueue (v : list GyrosData) (st : state) : state :=
  {| tun := tun st; gyroQueue := v; accelQueue := accelQueue st;
     Accels := Accels st; Gyros := Gyros st; Magnetometer := Magnetometer st;
     AttitudeActual := AttitudeActual st;
     AttitudeSettings := AttitudeSettings st;
     FlightStatus := FlightStatus st; alarm_ATTITUDE := alarm_ATTITUDE st;
     wdg_SENSORS := wdg_SENSORS st; wdg_ATTITUDE := wdg_ATTITUDE st;
     bma180_fifo := bma180_fifo st; mpu6000_fifo := mpu6000_fifo st;
     hmc5883 := hmc5883 st; bma180_scale := bma180_scale st;
     mpu6000_scale := mpu6000_scale st |}.

Definition set_accelQueue (v : list AccelsData) (st : state) : state :=
  {| tun := tun st; gyroQueue := gyroQueue st; accelQueue := v;
     Accels := Accels st; Gyros := Gyros st; Magnetometer := Magnetometer st;
     AttitudeActual := AttitudeActual st;
     AttitudeSettings := AttitudeSettings st;
     FlightStatus := FlightStatus st; alarm_ATTITUDE := alarm_ATTITUDE st;
     wdg_SENSORS := wdg_SENSORS st; wdg_ATTITUDE := wdg_ATTITUDE st;
     bma180_fifo := bma180_fifo st; mpu6000_fifo := mpu6000_fifo st;
     hmc5883 := hmc5883 st; bma180_scale := bma180_scale st;
     mpu6000_scale := mpu6000_scale st |}.

Definition set_Accels (v : AccelsData) (st : state) : state :=
  {| tun := tun st; gyroQueue := gyroQueue st; accelQueue := accelQueue st;
     Accels := v; Gyros := Gyros st; Magnetometer := Magnetometer st;
     AttitudeActual := AttitudeActual st;
     AttitudeSettings := AttitudeSettings st;
     FlightStatus := FlightStatus st; alarm_ATTITUDE := alarm_ATTITUDE st;
     wdg_SENSORS := wdg_SENSORS st; wdg_ATTITUDE := wdg_ATTITUDE st;
     bma180_fifo := bma180_fifo st; mpu6000_fifo := mpu6000_fifo st;
     hmc5883 := hmc5883 st; bma180_scale := bma180_scale st;
     mpu6000_scale := mpu6000_scale st |}.

Definition set_Gyros (v : GyrosData) (st : state) : state :=
  {| tun := tun st; gyroQueue := gyroQueue st; accelQueue := accelQueue st;
     Accels := Accels st; Gyros := v; Magnetometer := Magnetometer st;
     AttitudeActual := AttitudeActual st;
     AttitudeSettings := AttitudeSettings st;
     FlightStatus := FlightStatus st; alarm_ATTITUDE := alarm_ATTITUDE st;
     wdg_SENSORS := wdg_SENSORS st; wdg_ATTITUDE := wdg_ATTITUDE st;
     bma180_fifo := bma180_fifo st; mpu6000_fifo := mpu6000_fifo st;
     hmc5883 := hmc5883 st; bma180_scale := bma180_scale st;
     mpu6000_scale := mpu6000_scale st |}.

Definition set_Magnetometer (v : MagnetometerData) (st : state) : state :=
  {| tun := tun st; gyroQueue := gyroQueue st; accelQueue := accelQueue st;
     Accels := Accels st; Gyros := Gyros st; Magnetometer := v;
     AttitudeActual := AttitudeActual st;
     AttitudeSettings := AttitudeSettings st;
     FlightStatus := FlightStatus st; alarm_ATTITUDE := alarm_ATTITUDE st;
     wdg_SENSORS := wdg_SENSORS st; wdg_ATTITUDE := wdg_ATTITUDE st;
     bma180_fifo := bma180_fifo st; mpu6000_fifo := mpu6000_fifo st;
     hmc5883 := hmc5883 st; bma180_scale := bma180_scale st;
     mpu6000_scale := mpu6000_scale st |}.

Definition set_AttitudeActual (v : AttitudeActualData) (st : state) : state :=
  {| tun := tun st; gyroQueue := gyroQueue st; accelQueue := accelQueue st;
     Accels := Accels st; Gyros := Gyros st; Magnetometer := Magnetometer st;
     AttitudeActual := v; AttitudeSettings := AttitudeSettings st;
     FlightStatus := FlightStatus st; alarm_ATTITUDE := alarm_ATTITUDE st;
     wdg_SENSORS := wdg_SENSORS st; wdg_ATTITUDE := wdg_ATTITUDE st;
     bma180_fifo := bma180_fifo st; mpu6000_fifo := mpu6000_fifo st;
     hmc5883 := hmc5883 st; bma180_scale := bma180_scale st;
     mpu6000_scale := mpu6000_scale st |}.

Definition set_alarm_ATTITUDE (v : alarm) (st : state) : state :=
  {| tun := tun st; gyroQueue := gyroQueue st; accelQueue := accelQueue st;
     Accels := Accels st; Gyros := Gyros st; Magnetometer := Magnetometer st;
     AttitudeActual := AttitudeActual st;
     AttitudeSettings := AttitudeSettings st;
     FlightStatus := FlightStatus st; alarm_ATTITUDE := v;
     wdg_SENSORS := wdg_SENSORS st; wdg_ATTITUDE := wdg_ATTITUDE st;
     bma180_fifo := bma180_fifo st; mpu6000_fifo := mpu6000_fifo st;
     hmc5883 := hmc5883 st; bma180_scale := bma180_scale st;
     mpu6000_scale := mpu6000_scale st |}.

Definition set_wdg_SENSORS (v : nat) (st : state) : state :=
  {| tun := tun st; gyroQueue := gyroQueue st; accelQueue := accelQueue st;
     Accels := Accels st; Gyros := Gyros st; Magnetometer := Magnetometer st;
     AttitudeActual := AttitudeActual st;
     AttitudeSettings := AttitudeSettings st;
     FlightStatus := FlightStatus st; alarm_ATTITUDE := alarm_ATTITUDE st;
     wdg_SENSORS := v; wdg_ATTITUDE := wdg_ATTITUDE st;
     bma180_fifo := bma180_fifo st; mpu6000_fifo := mpu6000_fifo st;
     hmc5883 := hmc5883 st; bma180_scale := bma180_scale st;
     mpu6000_scale := mpu6000_scale st |}.

Definition set_wdg_ATTITUDE (v : nat) (st : state) : state :=
  {| tun := tun st; gyroQueue := gyroQueue st; accelQueue := accelQueue st;
     Accels := Accels st; Gyros := Gyros st; Magnetometer := Magnetometer st;
     AttitudeActual := AttitudeActual st;
     AttitudeSettings := AttitudeSettings st;
     FlightStatus := FlightStatus st; alarm_ATTITUDE := alarm_ATTITUDE st;
     wdg_SENSORS := wdg_SENSORS st; wdg_ATTITUDE := v;
     bma180_fifo := bma180_fifo st; mpu6000_fifo := mpu6000_fifo st;
     hmc5883 := hmc5883 st; bma180_scale := bma180_scale st;
     mpu6000_scale := mpu6000_scale st |}.

Definition set_bma180_fifo (v : list (option pios_bma180_data)) (st : state) : state :=
  {| tun := tun st; gyroQueue := gyroQueue st; accelQueue := accelQueue st;
     Accels := Accels st; Gyros := Gyros st; Magnetometer := Magnetometer st;
     AttitudeActual := AttitudeActual st;
     AttitudeSettings := AttitudeSettings st;
     FlightStatus := FlightStatus st; alarm_ATTITUDE := alarm_ATTITUDE st;
     wdg_SENSORS := wdg_SENSORS st; wdg_ATTITUDE := wdg_ATTITUDE st;
     bma180_fifo := v; mpu6000_fifo := mpu6000_fifo st;
     hmc5883 := hmc5883 st; bma180_scale := bma180_scale st;
     mpu6000_scale := mpu6000_scale st |}.

Definition set_mpu6000_fifo (v : list (option pios_mpu6000_data)) (st : state) : state :=
  {| tun := tun st; gyroQueue := gyroQueue st; accelQueue := accelQueue st;
     Accels := Accels st; Gyros := Gyros st; Magnetometer := Magnetometer st;
     AttitudeActual := AttitudeActual st;
     AttitudeSettings := AttitudeSettings st;
     FlightStatus := FlightStatus st; alarm_ATTITUDE := alarm_ATTITUDE st;
     wdg_SENSORS := wdg_SENSORS st; wdg_ATTITUDE := wdg_ATTITUDE st;
     bma180_fifo := bma180_fifo st; mpu6000_fifo := v; hmc5883 := hmc5883 st;
     bma180_scale := bma180_scale st; mpu6000_scale := mpu6000_scale st |}.

Definition set_hmc5883 (v : list (option ivec3)) (st : state) : state :=
  {| tun := tun st; gyroQueue := gyroQueue st; accelQueue := accelQueue st;
     Accels := Accels st; Gyros := Gyros st; Magnetometer := Magnetometer st;
     AttitudeActual := AttitudeActual st;
     AttitudeSettings := AttitudeSettings st;
     FlightStatus := FlightStatus st; alarm_ATTITUDE := alarm_ATTITUDE st;
     wdg_SENSORS := wdg_SENSORS st; wdg_ATTITUDE := wdg_ATTITUDE st;
     bma180_fifo := bma180_fifo st; mpu6000_fifo := mpu6000_fifo st;
     hmc5883 := v; bma180_scale := bma180_scale st;
     mpu6000_scale := mpu6000_scale st |}.

Definition tun_set_accelKi (v : F) (tu : tuning) : tuning :=
  {| accelKi := v; accelKp := accelKp tu; yawBiasRate := yawBiasRate tu;
     gyroGain := gyroGain tu; accelbias := accelbias tu; Rot := Rot tu;
     rotate := rotate tu; zero_during_arming := zero_during_arming tu;
     bias_correct_gyro := bias_correct_gyro tu; gyro_bias := gyro_bias tu |}.

Definition tun_set_accelKp (v : F) (tu : tuning) : tuning :=
  {| accelKi := accelKi tu; accelKp := v; yawBiasRate := yawBiasRate tu;
     gyroGain := gyroGain tu; accelbias := accelbias tu; Rot := Rot tu;
     rotate := rotate tu; zero_during_arming := zero_during_arming tu;
     bias_correct_gyro := bias_correct_gyro tu; gyro_bias := gyro_bias tu |}.

Definition tun_set_yawBiasRate (v : F) (tu : tuning) : tuning :=
  {| accelKi := accelKi tu; accelKp := accelKp tu; yawBiasRate := v;
     gyroGain := gyroGain tu; accelbias := accelbias tu; Rot := Rot tu;
     rotate := rotate tu; zero_during_arming := zero_during_arming tu;
     bias_correct_gyro := bias_correct_gyro tu; gyro_bias := gyro_bias tu |}.

Definition tun_set_gyro_bias (v : vec3) (tu : tuning) : tuning :=
  {| accelKi := accelKi tu; accelKp := accelKp tu;
     yawBiasRate := yawBiasRate tu; gyroGain := gyroGain tu;
     accelbias := accelbias tu; Rot := Rot tu; rotate := rotate tu;
     zero_during_arming := zero_during_arming tu;
     bias_correct_gyro := bias_correct_gyro tu; gyro_bias := v |}.


(** Modelled from the spec: [AlarmsSet] and [AlarmsClear] of the alarm
    library, on the ATTITUDE alarm, the one the loops set. *)
Definition AlarmsSet (severity : alarm) (st : state) : state :=
  set_alarm_ATTITUDE severity st.

Definition AlarmsClear (st : state) : state :=
  set_alarm_ATTITUDE SYSTEMALARMS_ALARM_OK st.

(** What a call does: it returns [a] in state [s], or it never returns
    (it spins on a FIFO that stays empty) and [s] is the state it spins in. *)
Inductive result (A : Type) :=
| Ret (a : A) (s : state)
| Hang (s : state).
Arguments Hang {A} s.

(** *** Queues *)

Definition SENSOR_QUEUE_SIZE : nat := 10.

(** Modelled from the spec: [xQueueSendToBack] of the RTOS with no wait, on
    a queue of capacity [SENSOR_QUEUE_SIZE]; [pdTRUE] and the item appended
    when there is room. *)
Definition xQueueSendToBack {T} (q : list T) (item : T) : bool * list T :=
  if (length q <? SENSOR_QUEUE_SIZE)%nat then (true, q ++ [item]) else (false, q).

(** Modelled from the spec: [xQueueReceive] of the RTOS; the oldest item,
    or a timeout when the queue stays empty for the time allowed. *)
Definition xQueueReceive {T} (q : list T) : option (T * list T) :=
  match q with
  | [] => None
  | item :: q' => Some (item, q')
  end.

(** *** Sensor acquisition *)

(** [while((read_good = ReadFifo(&s)) != 0);] gives the first sample read
    and the rest of the FIFO, or [None] when it never exits. *)
Fixpoint spin_read {T} (fifo : list (option T)) : option (T * list (option T)) :=
  match fifo with
  | [] => None
  | None :: rest => spin_read rest
  | Some s :: rest => Some (s, rest)
  end.

(** [while(read_good == 0) { count++; accum += s; read_good = ReadFifo(&s); }]
    entered with the sample [cur] just read: the last sample read, the
    count, the [int32] accumulators and the rest of the FIFO. *)
Fixpoint drain_fifo {T} (axes : T -> ivec3) (fifo : list (option T)) (cur : T)
    (count : Z) (accum : ivec3) {struct fifo} : T * Z * ivec3 * list (option T) :=
  let count := MachInt.int32 (count + 1) in
  let '(a0, a1, a2) := accum in
  let '(x, y, z) := axes cur in
  let accum := (MachInt.int32 (a0 + x), MachInt.int32 (a1 + y), MachInt.int32 (a2 + z))%Z in
  match fifo with
  | Some next :: rest => drain_fifo axes rest next count accum
  | None :: rest => (cur, count, accum, rest)
  | [] => (cur, count, accum, [])
  end.

Definition bma_axes (s : pios_bma180_data) : ivec3 := (bma_x s, bma_y s, bma_z s).
Definition mpu_axes (s : pios_mpu6000_data) : ivec3 := (gyro_x s, gyro_y s, gyro_z s).

(** The per-tick averages, with the channels swapped as the code does:
    [{(float) accum[1] / samples, (float) accum[0] / samples,
      -(float) accum[2] / samples}]. *)
Definition averages (accum : ivec3) (samples : Z) : vec3 :=
  let '(a0, a1, a2) := accum in
  (of_int a1 / of_int samples, of_int a0 / of_int samples,
   (- of_int a2) / of_int samples).

Definition accels_of (tu : tuning) (scaling : F) (accels : vec3)
    (temperature : Z) : AccelsData :=
  let '(v0, v1, v2) := accels in
  let '(b0, b1, b2) := accelbias tu in
  {| Accels_x := (v0 - of_int b0) * scaling;
     Accels_y := (v1 - of_int b1) * scaling;
     Accels_z := (v2 - of_int b2) * scaling;
     Accels_temperature :=
       of_lit 25 + (of_int temperature - of_lit 2) / of_lit 2 |}.

Definition gyros_of (scaling : F) (gyros : vec3) (temperature : Z) : GyrosData :=
  let '(v0, v1, v2) := gyros in
  {| Gyros_x := v0 * scaling;
     Gyros_y := v1 * scaling;
     Gyros_z := v2 * scaling;
     Gyros_temperature :=
       of_lit 35 + (of_int temperature + of_lit 512) / of_lit 340 |}.

(** [if(bias_correct_gyro) { gyrosData.x += gyro_bias[0]; ... }] *)
Definition bias_corrected (tu : tuning) (g : GyrosData) : GyrosData :=
  if bias_correct_gyro tu then
    let '(b0, b1, b2) := gyro_bias tu in
    {| Gyros_x := Gyros_x g + b0;
       Gyros_y := Gyros_y g + b1;
       Gyros_z := Gyros_z g + b2;
       Gyros_temperature := Gyros_temperature g |}
  else g.

(** [gyro_bias[2] += - gyrosData.z * yawBiasRate;] *)
Definition yaw_bias_leak (z_out : F) (tu : tuning) : tuning :=
  let '(b0, b1, b2) := gyro_bias tu in
  tun_set_gyro_bias (b0, b1, b2 + (- z_out) * yawBiasRate tu) tu.

Definition read_mag (st : state) : state :=
  match hmc5883 st with
  | [] => st
  | None :: later => set_hmc5883 later st
  | Some (v0, v1, v2) :: later =>
      set_Magnetometer
        {| Mag_x := of_int (- v0); Mag_y := of_int (- v1); Mag_z := of_int (- v2) |}
        (set_hmc5883 later st)
  end.

(** The samples of one tick: the FIFO is polled until it gives a sample,
    then drained.  [None]: it never gives one. *)
Definition read_fifo {T} (axes : T -> ivec3) (fifo : list (option T))
    : option (T * Z * ivec3 * list (option T)) :=
  match spin_read fifo with
  | None => None
  | Some (first, fifo) => Some (drain_fifo axes fifo first 0 (0, 0, 0)%Z)
  end.

(** [if(xQueueSendToBack(accelQueue, &accelsData, 0) != pdTRUE)
      AlarmsSet(SYSTEMALARMS_ALARM_ATTITUDE, SYSTEMALARMS_ALARM_WARNING);] *)
Definition send_accels (accelsData : AccelsData) (st : state) : state :=
  match xQueueSendToBack (accelQueue st) accelsData with
  | (true, q) => set_accelQueue q st
  | (false, _) => AlarmsSet SYSTEMALARMS_ALARM_WARNING st
  end.

Definition send_gyros (gyrosData : GyrosData) (st : state) : state :=
  match xQueueSendToBack (gyroQueue st) gyrosData with
  | (true, q) => set_gyroQueue q st
  | (false, _) => AlarmsSet SYSTEMALARMS_ALARM_WARNING st
  end.

(** The accelerometer half of [updateSensors], up to the queue. *)
Definition update_accels (st : state) : option state :=
  match read_fifo bma_axes (bma180_fifo st) with
  | None => None
  | Some (accel, count, accel_accum, fifo) =>
    let st := set_bma180_fifo fifo st in
    let accel_samples := MachInt.uint32 count in
    let accels := averages accel_accum accel_samples in
    let scaling := bma180_scale st in
    let accelsData := accels_of (tun st) scaling accels (bma_temperature accel) in
    let st := set_Accels accelsData st in
    Some (send_accels accelsData st)
  end.

(** The gyro half, up to the yaw bias. *)
Definition update_gyros (st : state) : option state :=
  match read_fifo mpu_axes (mpu6000_fifo st) with
  | None => None
  | Some (gyro, count, gyro_accum, fifo) =>
    let st := set_mpu6000_fifo fifo st in
    let gyro_samples := MachInt.uint32 count in
    let gyros := averages gyro_accum gyro_samples in
    let scaling := mpu6000_scale st in
    let gyrosData := gyros_of scaling gyros (mpu_temperature gyro) in
    let st := send_gyros gyrosData st in
    let gyrosData := bias_corrected (tun st) gyrosData in
    let st := set_Gyros gyrosData st in
    Some (set_tun (yaw_bias_leak (Gyros_z gyrosData) (tun st)) st)
  end.

Definition updateSensors (st : state) : result Z :=
  match update_accels st with
  | None => Hang st
  | Some st =>
    match update_gyros st with
    | None => Hang st
    | Some st => Ret 0%Z (read_mag st)
    end
  end.

(** *** The sensor task *)

Definition bootstrap_gains (tu : tuning) : tuning :=
  tun_set_yawBiasRate (of_lit (23 # 100))
    (tun_set_accelKi (of_lit (9 # 10)) (tun_set_accelKp (of_int 1) tu)).

Definition reload_gains (s : AttitudeSettingsData) (tu : tuning) : tuning :=
  tun_set_yawBiasRate (YawBiasRate s)
    (tun_set_accelKp (AccelKp s) (tun_set_accelKi (AccelKi s) tu)).

Definition is_arming (f : FlightStatusData) : bool :=
  match Armed f with FLIGHTSTATUS_ARMED_ARMING => true | _ => false end.

(** The [if / else if / else if] at the head of the loop body; [t1] and
    [t2] are the results of its two calls of [xTaskGetTickCount]. *)
Definition select_gains (t1 t2 : Z) (init : Z) (st : state) : Z * state :=
  let flightStatus := FlightStatus st in
  if ((t1 <? 7000) && (t2 >? 1000))%Z then
    (0%Z, set_tun (bootstrap_gains (tun st)) st)
  else if zero_during_arming (tun st) && is_arming flightStatus then
    (0%Z, set_tun (bootstrap_gains (tun st)) st)
  else if (init =? 0)%Z then
    (1%Z, set_tun (reload_gains (AttitudeSettings st) (tun st)) st)
  else (init, st).

(** One turn of the main loop of [SensorTask]; the result is [init]. *)
Definition SensorTask_turn (t1 t2 : Z) (init : Z) (st : state) : result Z :=
  let '(init, st) := select_gains t1 t2 init st in
  match updateSensors st with
  | Hang st => Hang st
  | Ret r st =>
    let st :=
      if (r =? 0)%Z then AlarmsClear st
      else AlarmsSet SYSTEMALARMS_ALARM_ERROR st in
    Ret init (set_wdg_SENSORS (S (wdg_SENSORS st)) st)
  end.


(** *** Coordinate conversions *)

(** The three conversions of CoordinateConversions.h that need
    trigonometry are taken as they are. *)
Variable Quaternion2RPY : quat -> vec3.
Variable RPY2Quaternion : vec3 -> quat.
Variable Quaternion2R : quat -> mat3.

(** Modelled from the spec: [CrossProduct] of CoordinateConversions.h,
    which is not part of this file; the 3-vector cross product. *)
Definition CrossProduct (v1 v2 : vec3) : vec3 :=
  let '(a0, a1, a2) := v1 in
  let '(b0, b1, b2) := v2 in
  (a1 * b2 - b1 * a2, b0 * a2 - a0 * b2, a0 * b1 - b0 * a1).

(** Modelled from the spec: [quat_copy] of CoordinateConversions.h, which
    is not part of this file; quaternion copy. *)
Definition quat_copy (q : quat) : quat := q.

(** *** The complementary filter *)

Definition F_PI : F := of_lit (314159265358979323846 # 100000000000000000000).

(** Gravity rotated to the body frame. *)
Definition grot_of (q : quat) : vec3 :=
  let '(q0, q1, q2, q3) := q in
  (- (of_int 2 * (q1 * q3 - q0 * q2)),
   - (of_int 2 * (q2 * q3 + q0 * q1)),
   - (q0 * q0 - q1 * q1 - q2 * q2 + q3 * q3)).

(** [accel_mag]: the magnitude of the accelerometer sample. *)
Definition accel_mag_of (a : AccelsData) : F :=
  fsqrt (Accels_x a * Accels_x a + Accels_y a * Accels_y a + Accels_z a * Accels_z a).

(** The error: the cross product of the accelerometer sample with the
    rotated gravity, each component divided by [accel_mag]. *)
Definition accel_err_of (q : quat) (a : AccelsData) : vec3 :=
  let '(e0, e1, e2) :=
    CrossProduct (Accels_x a, Accels_y a, Accels_z a) (grot_of q) in
  let accel_mag := accel_mag_of a in
  (e0 / accel_mag, e1 / accel_mag, e2 / accel_mag).

(** [gyro_bias[0] += accel_err[0] * accelKi; gyro_bias[1] += ...] *)
Definition integrate_bias (accel_err : vec3) (tu : tuning) : tuning :=
  let '(e0, e1, _) := accel_err in
  let '(b0, b1, b2) := gyro_bias tu in
  tun_set_gyro_bias (b0 + e0 * accelKi tu, b1 + e1 * accelKi tu, b2) tu.

(** [gyrosData.x += accel_err[0] * accelKp / dT; ...] *)
Definition corrected_rates (tu : tuning) (accel_err : vec3) (dT : F)
    (g : GyrosData) : vec3 :=
  let '(e0, e1, e2) := accel_err in
  (Gyros_x g + e0 * accelKp tu / dT,
   Gyros_y g + e1 * accelKp tu / dT,
   Gyros_z g + e2 * accelKp tu / dT).

(** The time derivative, the gyros being in deg/s. *)
Definition qdot_of (q : quat) (w : vec3) (dT : F) : quat :=
  let '(q0, q1, q2, q3) := q in
  let '(wx, wy, wz) := w in
  (((- q1) * wx - q2 * wy - q3 * wz) * dT * F_PI / of_int 180 / of_int 2,
   (q0 * wx - q3 * wy + q2 * wz) * dT * F_PI / of_int 180 / of_int 2,
   (q3 * wx + q0 * wy - q1 * wz) * dT * F_PI / of_int 180 / of_int 2,
   ((- q2) * wx + q1 * wy + q0 * wz) * dT * F_PI / of_int 180 / of_int 2).

(** Take a time step. *)
Definition time_step (q qdot : quat) : quat :=
  let '(q0, q1, q2, q3) := q in
  let '(d0, d1, d2, d3) := qdot in
  (q0 + d0, q1 + d1, q2 + d2, q3 + d3).

(** [if(q[0] < 0) { q[0] = -q[0]; ... }] *)
Definition hemisphere (q : quat) : quat :=
  let '(q0, q1, q2, q3) := q in
  if q0 <? of_int 0 then (- q0, - q1, - q2, - q3) else q.

Definition qmag_of (q : quat) : F :=
  let '(q0, q1, q2, q3) := q in
  fsqrt (q0 * q0 + q1 * q1 + q2 * q2 + q3 * q3).

(** Renormalize; reinitialise when the quaternion has become
    inappropriately short or is NaN. *)
Definition renormalize (q : quat) : quat :=
  let '(q0, q1, q2, q3) := q in
  let qmag := qmag_of q in
  let q := (q0 / qmag, q1 / qmag, q2 / qmag, q3 / qmag) in
  if (fabs qmag <? of_lit (1 # 1000)) || (qmag !=? qmag) then
    (of_int 1, of_int 0, of_int 0, of_int 0)
  else q.

Definition quat_of (a : AttitudeActualData) : quat := (q1 a, q2 a, q3 a, q4 a).

(** [quat_copy(q, &attitudeActual.q1); Quaternion2RPY(&attitudeActual.q1,
    &attitudeActual.Roll);] *)
Definition store_quat (q : quat) : AttitudeActualData :=
  let '(c0, c1, c2, c3) := quat_copy q in
  let '(roll, pitch, yaw) := Quaternion2RPY (c0, c1, c2, c3) in
  {| q1 := c0; q2 := c1; q3 := c2; q4 := c3;
     Roll := roll; Pitch := pitch; Yaw := yaw |}.

(** The filter proper, from the two samples: the tuning variables with
    the bias integrated, and the quaternion after the time step, in the
    upper hemisphere, not yet renormalised. *)
Definition integrate (tu : tuning) (q : quat) (gyrosData : GyrosData)
    (accelsData : AccelsData) (dT : F) : tuning * quat :=
  let accel_err := accel_err_of q accelsData in
  let tu := integrate_bias accel_err tu in
  let w := corrected_rates tu accel_err dT gyrosData in
  let q := time_step q (qdot_of q w dT) in
  (tu, hemisphere q).

(** One call; [diff_us] is the result of [PIOS_DELAY_DiffuS(timeval)]. *)
Definition updateAttitudeComplimentary (diff_us : Z) (st : state) : Z * state :=
  match xQueueReceive (gyroQueue st) with
  | None => ((-1)%Z, AlarmsSet SYSTEMALARMS_ALARM_ERROR st)
  | Some (gyrosData, gq) =>
    let st := set_gyroQueue gq st in
    match xQueueReceive (accelQueue st) with
    | None => ((-1)%Z, AlarmsSet SYSTEMALARMS_ALARM_ERROR st)
    | Some (accelsData, aq) =>
      let st := set_accelQueue aq st in
      let dT := of_int diff_us / of_lit 1000000 in
      let attitudeActual := AttitudeActual st in
      let q := quat_copy (quat_of attitudeActual) in
      let '(tu, q) := integrate (tun st) q gyrosData accelsData dT in
      let st := set_tun tu st in
      let q := renormalize q in
      let st := set_AttitudeActual (store_quat q) st in
      (0%Z, AlarmsClear st)
    end
  end.

(** One turn of the main loop of [AttitudeTask]. *)
Definition AttitudeTask_turn (diff_us : Z) (st : state) : state :=
  let '(_, st) := updateAttitudeComplimentary diff_us st in
  set_wdg_ATTITUDE (S (wdg_ATTITUDE st)) st.

(** The loop, for as many turns as there are clock readings. *)
Fixpoint AttitudeTask_loop (clock : list Z) (st : state) : state :=
  match clock with
  | [] => st
  | diff_us :: clock => AttitudeTask_loop clock (AttitudeTask_turn diff_us st)
  end.

(** *** Settings *)

Definition settingsUpdatedCb (st : state) : state :=
  let attitudeSettings := AttitudeSettings st in
  let '(g0, g1, g2) := GyroBias attitudeSettings in
  let '(r0, r1, r2) := BoardRotation attitudeSettings in
  let still := ((r0 =? 0) && (r1 =? 0) && (r2 =? 0))%Z in
  let rotationQuat :=
    if still then (of_int 1, of_int 0, of_int 0, of_int 0)
    else RPY2Quaternion (of_int r0, of_int r1, of_int r2) in
  set_tun
    {| accelKp := AccelKp attitudeSettings;
       accelKi := AccelKi attitudeSettings;
       yawBiasRate := YawBiasRate attitudeSettings;
       gyroGain := GyroGain attitudeSettings;
       zero_during_arming := ZeroDuringArming attitudeSettings;
       bias_correct_gyro := BiasCorrectGyro attitudeSettings;
       accelbias := AccelBias attitudeSettings;
       gyro_bias :=
         (of_int g0 / of_lit 100, of_int g1 / of_lit 100, of_int g2 / of_lit 100);
       rotate := if still then 0%Z else 1%Z;
       Rot := Quaternion2R rotationQuat |}
    st.

End Attitude.

Arguments Hang {F A} s.
Arguments Ret {F A} a s.
Arguments F_PI {F FA}.

Section Startup.
Context (F : Type) {FA : FloatArith F}.

Definition zero_settings : AttitudeSettingsData F :=
  {| AccelKp := of_int 0; AccelKi := of_int 0; YawBiasRate := of_int 0;
     GyroGain := of_lit (42 # 100);
     ZeroDuringArming := false; BiasCorrectGyro := true;
     AccelBias := (0, 0, 0)%Z; GyroBias := (0, 0, 0)%Z;
     BoardRotation := (0, 0, 0)%Z |}.

(** The state once [AttitudeInitialize] has run: the static initialisers,
    the identity quaternion, no gyro bias, [R] cleared, empty queues. *)
Definition AttitudeInitialize (settings : AttitudeSettingsData F)
    (accel_scale gyro_scale : F) : state F :=
  let o := of_int 0 in
  {| tun :=
       {| accelKi := o; accelKp := o; yawBiasRate := o;
          gyroGain := of_lit (42 # 100);
          accelbias := (0, 0, 0)%Z;
          Rot := ((o, o, o), (o, o, o), (o, o, o)); rotate := 0;
          zero_during_arming := false; bias_correct_gyro := true;
          gyro_bias := (o, o, o) |};
     gyroQueue := []; accelQueue := [];
     Accels := {| Accels_x := o; Accels_y := o; Accels_z := o; Accels_temperature := o |};
     Gyros := {| Gyros_x := o; Gyros_y := o; Gyros_z := o; Gyros_temperature := o |};
     Magnetometer := {| Mag_x := o; Mag_y := o; Mag_z := o |};
     AttitudeActual :=
       {| q1 := of_int 1; q2 := o; q3 := o; q4 := o; Roll := o; Pitch := o; Yaw := o |};
     AttitudeSettings := settings;
     FlightStatus := {| Armed := FLIGHTSTATUS_ARMED_DISARMED |};
     alarm_ATTITUDE := SYSTEMALARMS_ALARM_OK;
     wdg_SENSORS := 0; wdg_ATTITUDE := 0;
     bma180_fifo := []; mpu6000_fifo := []; hmc5883 := [];
     bma180_scale := accel_scale; mpu6000_scale := gyro_scale |}.
End Startup.

Arguments zero_settings F {FA}.



(** ** Notions used in the statements *)

(** The sum of one axis over the samples of a tick. *)
Definition sum_of {T : Type} (f : T -> Z) (samples : list T) : Z :=
  fold_right (fun s acc => (f s + acc)%Z) 0%Z samples.

(** A FIFO that gives a sample at some call. *)
Definition delivers {T : Type} (fifo : list (option T)) : Prop :=
  exists s, In (Some s) fifo.

Section Notions.
Context {F : Type} {FA : FloatArith F}.

(** The three gains of the filter. *)
Definition gains (tu : tuning F) : F * F * F :=
  (accelKp tu, accelKi tu, yawBiasRate tu).

(** The tuning variables with another board rotation. *)
Definition with_rotation (rot : Z) (R : mat3 F) (st : state F) : state F :=
  set_tun
    {| accelKi := accelKi (tun st); accelKp := accelKp (tun st);
       yawBiasRate := yawBiasRate (tun st); gyroGain := gyroGain (tun st);
       accelbias := accelbias (tun st); Rot := R; rotate := rot;
       zero_during_arming := zero_during_arming (tun st);
       bias_correct_gyro := bias_correct_gyro (tun st);
       gyro_bias := gyro_bias (tun st) |}
    st.

(** Modelled from the spec: the rotation of a triple by [R] that the
    specification asks of the acquisition loop and that this file has
    nowhere; the product of the matrix and the vector. *)
Definition rot_mult (R : mat3 F) (v : vec3 F) : vec3 F :=
  let '((r00, r01, r02), (r10, r11, r12), (r20, r21, r22)) := R in
  let '(v0, v1, v2) := v in
  (r00 * v0 + r01 * v1 + r02 * v2,
   r10 * v0 + r11 * v1 + r12 * v2,
   r20 * v0 + r21 * v1 + r22 * v2)%flt.
End Notions.

(** *** The formulas of the specification *)

(** The formulas as the specification writes them, on [float] operands,
    to be compared with what the code computes. *)
Section SpecFormulas.
Context {F : Type} {FA : FloatArith F}.
Local Open Scope float_scope.

(** [g_b.x = -2(q1 q3 - q0 q2)], [g_b.y = -2(q2 q3 + q0 q1)],
    [g_b.z = -(q0^2 - q1^2 - q2^2 + q3^2)]. *)
Definition spec_grot (q : quat F) : vec3 F :=
  let '(q0, q1, q2, q3) := q in
  (of_int (-2) * (q1 * q3 - q0 * q2),
   of_int (-2) * (q2 * q3 + q0 * q1),
   - (q0 * q0 - q1 * q1 - q2 * q2 + q3 * q3)).

(** [Error = a x g_b], the cross product, then normalised by [|a|]. *)
Definition spec_err (a g_b : vec3 F) : vec3 F :=
  let '(a0, a1, a2) := a in
  let '(g0, g1, g2) := g_b in
  let norm := fsqrt (a0 * a0 + a1 * a1 + a2 * a2) in
  ((a1 * g2 - a2 * g1) / norm,
   (a2 * g0 - a0 * g2) / norm,
   (a0 * g1 - a1 * g0) / norm).

(** [w <- w + err * accel_kp / dT]. *)
Definition spec_rates (w err : vec3 F) (accel_kp dT : F) : vec3 F :=
  let '(wx, wy, wz) := w in
  let '(e0, e1, e2) := err in
  (wx + e0 * accel_kp / dT, wy + e1 * accel_kp / dT, wz + e2 * accel_kp / dT).

(** [qdot0 = (-q1 wx - q2 wy - q3 wz) * dT * pi/360] and the three other
    components, for the value [pi] of the constant; the factor [pi/360] is
    the conversion of degrees to radians, [pi / 180], and the half of the
    quaternion kinematics, applied in that order. *)
Definition spec_qdot (pi : F) (q : quat F) (w : vec3 F) (dT : F) : quat F :=
  let '(q0, q1, q2, q3) := q in
  let '(wx, wy, wz) := w in
  (((- q1) * wx - q2 * wy - q3 * wz) * dT * pi / of_int 180 / of_int 2,
   (   q0  * wx - q3 * wy + q2 * wz) * dT * pi / of_int 180 / of_int 2,
   (   q3  * wx + q0 * wy - q1 * wz) * dT * pi / of_int 180 / of_int 2,
   ((- q2) * wx + q1 * wy + q0 * wz) * dT * pi / of_int 180 / of_int 2).

(** [q <- q + qdot]. *)
Definition quat_plus (q d : quat F) : quat F :=
  let '(q0, q1, q2, q3) := q in
  let '(d0, d1, d2, d3) := d in
  (q0 + d0, q1 + d1, q2 + d2, q3 + d3).
End SpecFormulas.

(** *** Single precision *)

(** Equality of two floats as data. *)
Definition sf_eqb (x y : spec_float) : bool :=
  match x, y with
  | S754_zero s, S754_zero s' => Bool.eqb s s'
  | S754_infinity s, S754_infinity s' => Bool.eqb s s'
  | S754_nan, S754_nan => true
  | S754_finite s m e, S754_finite s' m' e' =>
      Bool.eqb s s' && Pos.eqb m m' && Z.eqb e e'
  | _, _ => false
  end.

(** The integers [lo], [lo + 1], ..., [lo + n - 1]. *)
Fixpoint Zrange (lo : Z) (n : nat) : list Z :=
  match n with
  | O => []
  | S n => lo :: Zrange (lo + 1) n
  end.

Definition zero_or_nan (x : Binary32.t) : bool :=
  match x with
  | S754_zero _ | S754_nan => true
  | _ => false
  end.

(** Not below zero: NaN, a zero, or a float of positive sign. *)
Definition not_negative (x : Binary32.t) : bool :=
  match x with
  | S754_finite true _ _ | S754_infinity true => false
  | _ => true
  end.

Definition positive_sign (x : Binary32.t) : bool :=
  match x with
  | S754_finite false _ _ | S754_infinity false => true
  | _ => false
  end.

(** An accelerometer sample with the three axes at zero, of either sign. *)
Definition all_zero (a : AccelsData Binary32.t) : Prop :=
  Binary32.is_zero (Accels_x a) = true /\
  Binary32.is_zero (Accels_y a) = true /\
  Binary32.is_zero (Accels_z a) = true.

(** ** Scenarios *)

Module Scenario.
(** Euler angles are not looked at: a conversion that gives none. *)
Definition no_rpy (q : quat Binary32.t) : vec3 Binary32.t :=
  (Binary32.zero, Binary32.zero, Binary32.zero).

(** Both scales 1, nothing in the FIFOs: no sample will ever come. *)
Definition starved : state Binary32.t :=
  AttitudeInitialize (zero_settings _) (of_int 1) (of_int 1).

Definition bench (tu : tuning Binary32.t)
    (accel_fifo : list (option pios_bma180_data))
    (gyro_fifo : list (option pios_mpu6000_data)) : state Binary32.t :=
  set_mpu6000_fifo gyro_fifo (set_bma180_fifo accel_fifo (set_tun tu starved)).

Definition with_accelbias (b : ivec3) (tu : tuning Binary32.t) : tuning Binary32.t :=
  {| accelKi := accelKi tu; accelKp := accelKp tu;
     yawBiasRate := yawBiasRate tu; gyroGain := gyroGain tu;
     accelbias := b; Rot := Rot tu; rotate := rotate tu;
     zero_during_arming := zero_during_arming tu;
     bias_correct_gyro := bias_correct_gyro tu;
     gyro_bias := gyro_bias tu |}.

Definition gyro_at_rest : pios_mpu6000_data :=
  {| gyro_x := 0; gyro_y := 0; gyro_z := 0; mpu_temperature := 0 |}.


(** A bias of 1 deg/s on each axis, two gyro readings in the tick. *)
Definition turning : state Binary32.t :=
  bench (tun_set_gyro_bias (of_int 1, of_int 1, of_int 1)
           (tun_set_yawBiasRate (of_lit (23 # 100)) (tun starved)))
    [Some {| bma_x := 0; bma_y := 0; bma_z := -256; bma_temperature := 2 |}; None]
    [None; Some {| gyro_x := 3; gyro_y := 5; gyro_z := 7; mpu_temperature := 0 |};
     Some {| gyro_x := 4; gyro_y := 5; gyro_z := 7; mpu_temperature := 0 |}].

(** [accelbias = (10, -10, 0)] and the reading [(10, -10, 5)]. *)
Definition biased : state Binary32.t :=
  bench (with_accelbias (10, -10, 0)%Z (tun starved))
    [Some {| bma_x := 10; bma_y := -10; bma_z := 5; bma_temperature := 2 |}; None]
    [Some gyro_at_rest; None].

(** The same bias and three readings [(-10, 10, 5)]. *)
Definition biased_swapped : state Binary32.t :=
  bench (with_accelbias (10, -10, 0)%Z (tun starved))
    (repeat None 2
     ++ repeat (Some {| bma_x := -10; bma_y := 10; bma_z := 5; bma_temperature := 2 |}) 3
     ++ [None])
    [Some gyro_at_rest; None].

(** One reading [(1, 2, 3)] of the accelerometer, [(4, 5, 6)] of the gyro. *)
Definition one_of_each : state Binary32.t :=
  bench (tun starved)
    (repeat None 1
     ++ Some {| bma_x := 1; bma_y := 2; bma_z := 3; bma_temperature := 2 |}
     :: None :: [])
    (repeat None 0
     ++ Some {| gyro_x := 4; gyro_y := 5; gyro_z := 6; mpu_temperature := 0 |}
     :: None :: []).

(** A quarter turn about the z axis as board rotation, [rotate] set, and
    the reading [(0, 100, 0)]. *)
Definition quarter_turn : mat3 Binary32.t :=
  ((of_int 0, of_int 1, of_int 0),
   (of_int (-1), of_int 0, of_int 0),
   (of_int 0, of_int 0, of_int 1)).

Definition rotated_board : state Binary32.t :=
  with_rotation 1 quarter_turn
    (bench (tun starved)
       [Some {| bma_x := 0; bma_y := 100; bma_z := 0; bma_temperature := 2 |}; None]
       [Some gyro_at_rest; None]).

(** A craft in free fall: the accelerometer reads zero on its three axes. *)
Definition freefall_start : state Binary32.t :=
  bench (tun starved)
    [Some {| bma_x := 0; bma_y := 0; bma_z := 0; bma_temperature := 2 |}; None]
    [Some gyro_at_rest; None].

(** Two seconds after start-up, after one turn of the sensor task: the
    forced gains, one gyro and one accelerometer sample queued. *)
Definition freefall : state Binary32.t :=
  match SensorTask_turn 2000 2000 0 freefall_start with
  | Ret _ st => st
  | Hang st => st
  end.

(** The accelerometer sample that turn has queued. *)
Definition weightless : AccelsData Binary32.t :=
  {| Accels_x := S754_zero false; Accels_y := S754_zero false;
     Accels_z := S754_zero true; Accels_temperature := of_int 25 |}.

(** Settings with a proportional gain of 1e30. *)
Definition stiff_settings : AttitudeSettingsData Binary32.t :=
  {| AccelKp := of_lit (1000000000000000000000000000000 # 1);
     AccelKi := of_int 0; YawBiasRate := of_int 0;
     GyroGain := of_lit (42 # 100);
     ZeroDuringArming := false; BiasCorrectGyro := true;
     AccelBias := (0, 0, 0)%Z; GyroBias := (0, 0, 0)%Z;
     BoardRotation := (0, 0, 0)%Z |}.

(** The craft on its side, at rest: one reading of each FIFO. *)
Definition stiff_start : state Binary32.t :=
  set_mpu6000_fifo [Some gyro_at_rest; None]
    (set_bma180_fifo
       [Some {| bma_x := 0; bma_y := 1; bma_z := 0; bma_temperature := 2 |}; None]
       (AttitudeInitialize stiff_settings (of_int 1) (of_int 1))).

(** A turn of the sensor task after the first seven seconds, then a step
    of the estimator 2 ms later. *)
Definition stiff_publish : option (Z * state Binary32.t) :=
  match SensorTask_turn 8000 8000 0 stiff_start with
  | Ret _ st => Some (updateAttitudeComplimentary no_rpy 2000 st)
  | Hang _ => None
  end.

End Scenario.

(** ** Further notions *)

Section MoreNotions.
Context {F : Type} {FA : FloatArith F}.

(** Neither queue holds more than its capacity. *)
Definition queues_bounded (st : state F) : Prop :=
  (length (gyroQueue st) <= SENSOR_QUEUE_SIZE)%nat /\
  (length (accelQueue st) <= SENSOR_QUEUE_SIZE)%nat.

(** A queue that takes one more item. *)
Definition has_room {T : Type} (q : list T) : bool :=
  (length q <? SENSOR_QUEUE_SIZE)%nat.

(** The state with another integral gain and another gyro bias. *)
Definition with_integral (ki : F) (b : vec3 F) (st : state F) : state F :=
  set_tun (tun_set_accelKi ki (tun_set_gyro_bias b (tun st))) st.

(** The flight status object as another module has set it. *)
Definition set_FlightStatus (v : FlightStatusData) (st : state F) : state F :=
  {| tun := tun st; gyroQueue := gyroQueue st; accelQueue := accelQueue st;
     Accels := Accels st; Gyros := Gyros st; Magnetometer := Magnetometer st;
     AttitudeActual := AttitudeActual st; AttitudeSettings := AttitudeSettings st;
     FlightStatus := v; alarm_ATTITUDE := alarm_ATTITUDE st;
     wdg_SENSORS := wdg_SENSORS st; wdg_ATTITUDE := wdg_ATTITUDE st;
     bma180_fifo := bma180_fifo st; mpu6000_fifo := mpu6000_fifo st;
     hmc5883 := hmc5883 st; bma180_scale := bma180_scale st;
     mpu6000_scale := mpu6000_scale st |}.

(** The main loop of [SensorTask], [while (1) { FlightStatusGet(...); ... }],
    for as many turns as the list has entries: the two readings of the tick
    count and the flight status that the turn finds.  It stops at the turn
    that does not return. *)
Fixpoint SensorTask_loop (turns : list (Z * Z * FlightStatusData)) (init : Z)
    (st : state F) : result F Z :=
  match turns with
  | [] => Ret init st
  | (t1, t2, flightStatus) :: turns =>
      match SensorTask_turn t1 t2 init (set_FlightStatus flightStatus st) with
      | Hang st => Hang st
      | Ret init st => SensorTask_loop turns init st
      end
  end.

(** [PIOS_WDG_UpdateFlag(PIOS_WDG_SENSORS)], as the turns of the main loop
    count it. *)
Definition stroke_SENSORS (st : state F) : state F :=
  set_wdg_SENSORS (S (wdg_SENSORS st)) st.

(** What the sensor task is seen doing, with the SENSORS alarm: idling in
    the loop that follows a failed self-test, or running its main loop. *)
Inductive task_run :=
| Idling (alarm_SENSORS : alarm) (st : state F)
| Running (alarm_SENSORS : alarm) (r : result F Z).

(** [SensorTask] from its start; the three arguments are the results of
    [PIOS_BMA180_Test], [PIOS_MPU6000_Test] and [PIOS_HMC5883_Test], and
    [idle] counts the turns of [while(1) { PIOS_WDG_UpdateFlag(...);
    vTaskDelay(1); }] seen so far. *)
Definition SensorTask (accel_test gyro_test mag_test : Z) (idle : nat)
    (turns : list (Z * Z * FlightStatusData)) (st : state F) : task_run :=
  if ((accel_test <? 0) || (gyro_test <? 0) || (mag_test <? 0))%Z then
    Idling SYSTEMALARMS_ALARM_CRITICAL (Nat.iter idle stroke_SENSORS st)
  else Running SYSTEMALARMS_ALARM_OK (SensorTask_loop turns 0 st).

(** A turn out of the bootstrap window that does not find the craft
    arming. *)
Definition nominal_turn (t : Z * Z * FlightStatusData) : Prop :=
  let '(t1, t2, flightStatus) := t in
  ((t1 <? 7000) && (t2 >? 1000))%Z = false /\ is_arming flightStatus = false.

(** The three axes of an accelerometer sample are 16-bit integers. *)
Definition bma_in_range (s : pios_bma180_data) : Prop :=
  MachInt.in_int16 (bma_x s) /\ MachInt.in_int16 (bma_y s) /\
  MachInt.in_int16 (bma_z s).

(** The three axes of a gyro sample are 16-bit integers. *)
Definition mpu_in_range (s : pios_mpu6000_data) : Prop :=
  MachInt.in_int16 (gyro_x s) /\ MachInt.in_int16 (gyro_y s) /\
  MachInt.in_int16 (gyro_z s).

(** The averages of a tick that has read [samples], with the channels
    swapped: sum of [y] over the count, sum of [x] over the count, minus
    the sum of [z] over the count. *)
Definition remapped_means {T : Type} (x y z : T -> Z) (samples : list T) : vec3 F :=
  let n := of_int (Z.of_nat (length samples)) in
  (of_int (sum_of y samples) / n, of_int (sum_of x samples) / n,
   (- of_int (sum_of z samples)) / n)%flt.

(** The prologue of [AttitudeTask] and then its loop. *)
Definition AttitudeTask (Quaternion2RPY : quat F -> vec3 F)
    (RPY2Quaternion : vec3 F -> quat F) (Quaternion2R : quat F -> mat3 F)
    (clock : list Z) (st : state F) : state F :=
  AttitudeTask_loop Quaternion2RPY clock
    (settingsUpdatedCb RPY2Quaternion Quaternion2R (AlarmsClear st)).
End MoreNotions.

(** ** Further scenarios *)

Module Case.
Import Scenario.

Definition still : GyrosData Binary32.t :=
  {| Gyros_x := of_int 0; Gyros_y := of_int 0; Gyros_z := of_int 0;
     Gyros_temperature := of_int 35 |}.

(** Both queues full, and one reading in each FIFO. *)
Definition crowded : state Binary32.t :=
  set_accelQueue (repeat weightless 10) (set_gyroQueue (repeat still 10) one_of_each).

(** A gyro sample queued and no accelerometer sample. *)
Definition gyro_only : state Binary32.t := set_gyroQueue [still] starved.

(** New data [(1, -2, 3)] at the magnetometer. *)
Definition with_mag : state Binary32.t :=
  set_hmc5883 [Some (1, -2, 3)%Z] one_of_each.

(** Readings for two ticks. *)
Definition two_ticks : state Binary32.t :=
  bench (tun starved)
    [Some {| bma_x := 0; bma_y := 0; bma_z := -256; bma_temperature := 2 |}; None;
     Some {| bma_x := 1; bma_y := 0; bma_z := -256; bma_temperature := 2 |}; None]
    [Some gyro_at_rest; None; Some gyro_at_rest; None].

Definition disarmed : FlightStatusData := {| Armed := FLIGHTSTATUS_ARMED_DISARMED |}.

(** Two different readings in one tick, after an empty poll. *)
Definition first_reading : pios_bma180_data :=
  {| bma_x := 1; bma_y := 2; bma_z := 3; bma_temperature := 2 |}.
Definition second_reading : pios_bma180_data :=
  {| bma_x := 3; bma_y := 4; bma_z := 5; bma_temperature := 4 |}.
Definition two_readings : state Binary32.t :=
  bench (tun starved)
    (repeat None 1 ++ map Some [first_reading; second_reading] ++ None :: [])
    [Some gyro_at_rest; None].

(** A gyro bias that is NaN about x. *)
Definition nan_bias : state Binary32.t :=
  bench (tun_set_gyro_bias (S754_nan, of_int 0, of_int 0) (tun starved))
    [Some {| bma_x := 0; bma_y := 0; bma_z := -256; bma_temperature := 2 |}; None]
    [Some gyro_at_rest; None].

(** Two readings of each FIFO in one tick. *)
Definition first_rate : pios_mpu6000_data :=
  {| gyro_x := 4; gyro_y := 5; gyro_z := 6; mpu_temperature := 0 |}.
Definition second_rate : pios_mpu6000_data :=
  {| gyro_x := 6; gyro_y := 9; gyro_z := -2; mpu_temperature := 0 |}.
Definition two_of_each : state Binary32.t :=
  bench (tun starved)
    (repeat None 1 ++ map Some [first_reading; second_reading] ++ None :: [])
    (repeat None 0 ++ map Some [first_rate; second_rate] ++ None :: []).

(** Level flight, a roll rate of 90 deg/s and 1 g on the queues, the
    proportional gain at 1. *)
Definition rolling : state Binary32.t :=
  set_accelQueue
    [{| Accels_x := of_int 0; Accels_y := of_int 0; Accels_z := of_int (-1);
        Accels_temperature := of_int 25 |}]
    (set_gyroQueue
       [{| Gyros_x := of_int 90; Gyros_y := of_int 0; Gyros_z := of_int 0;
           Gyros_temperature := of_int 35 |}]
       (set_tun (tun_set_accelKp (of_int 1) (tun starved)) starved)).

(** The state in which the step of [stiff_publish] is taken. *)
Definition stiff : state Binary32.t :=
  match SensorTask_turn 8000 8000 0 stiff_start with
  | Ret _ st => st
  | Hang st => st
  end.
End Case.

(** * Properties *)

Unset Implicit Arguments.

Ltac pairs_eq :=
  repeat match goal with |- (_, _) = (_, _) => f_equal end.

(** ** Machine integers *)

Module MachIntFacts.
Import MachInt.
Local Open Scope Z_scope.

Lemma int32_small z : - 2 ^ 31 <= z < 2 ^ 31 -> int32 z = z.
Proof.
  intros Hz. unfold int32, wrap_signed.
  change (2 ^ (32 - 1)) with (2 ^ 31) in *. change (2 ^ 32) with (2 * 2 ^ 31).
  rewrite Z.mod_small; lia.
Qed.

Lemma uint32_small z : 0 <= z < 2 ^ 32 -> uint32 z = z.
Proof. intros Hz. unfold uint32, wrap_unsigned. now rewrite Z.mod_small. Qed.
End MachIntFacts.

(** ** Single precision arithmetic *)

Module Binary32Facts.
Import Binary32.

Lemma add_nan_r x : add x S754_nan = S754_nan.
Proof. now destruct x. Qed.

Lemma mul_nan_r x : mul x S754_nan = S754_nan.
Proof. now destruct x. Qed.

(** Rounding is symmetric: the sign only labels the result. *)
Lemma round_aux_negb s m e l :
  binary_round_aux prec emax (negb s) m e l
  = SFopp (binary_round_aux prec emax s m e l).
Proof.
  unfold binary_round_aux.
  destruct (shr_fexp prec emax m e l) as [mrs' e'].
  destruct (shr_fexp prec emax _ e' loc_Exact) as [mrs'' e''].
  destruct (shr_m mrs''); try reflexivity.
  now destruct (e'' <=? emax - prec)%Z.
Qed.

(** Rounding gives NaN or a float of the sign asked for. *)
Lemma round_aux_sign m e l :
  not_negative (binary_round_aux prec emax false m e l) = true.
Proof.
  unfold binary_round_aux.
  destruct (shr_fexp prec emax m e l) as [mrs' e'].
  destruct (shr_fexp prec emax _ e' loc_Exact) as [mrs'' e''].
  destruct (shr_m mrs''); try reflexivity.
  now destruct (e'' <=? emax - prec)%Z.
Qed.

Lemma xorb_negb_l a b : xorb (negb a) b = negb (xorb a b).
Proof. now destruct a, b. Qed.

(** [(-x) * y] is [-(x * y)], bit for bit. *)
Lemma mul_opp_l x y : mul (SFopp x) y = SFopp (mul x y).
Proof.
  destruct x as [sx|sx| |sx mx ex], y as [sy|sy| |sy my ey]; cbn;
    rewrite ?xorb_negb_l; try reflexivity.
  apply round_aux_negb.
Qed.

Lemma div_opp_l x y : div (SFopp x) y = SFopp (div x y).
Proof.
  destruct x as [sx|sx| |sx mx ex], y as [sy|sy| |sy my ey]; cbn;
    rewrite ?xorb_negb_l; try reflexivity.
  destruct (SFdiv_core_binary prec emax (Z.pos mx) ex (Z.pos my) ey) as [[mz ez] lz].
  apply round_aux_negb.
Qed.

(** [x + (-y)] is [x - y], bit for bit. *)
Lemma add_opp_r x y : add x (SFopp y) = sub x y.
Proof.
  destruct x as [sx|sx| |sx mx ex], y as [sy|sy| |sy my ey]; cbn;
    try reflexivity; now destruct sx, sy.
Qed.

Lemma sub_zero_r x : sub x (of_Z 0) = x.
Proof. now destruct x as [[|]|[|]| |[|] m e]. Qed.

Lemma mul_zero_finite s y :
  is_finite y = true -> is_zero (mul (S754_zero s) y) = true.
Proof. now destruct y. Qed.

(** *** Zero and NaN *)

Lemma mul_zero_l x y : is_zero x = true -> zero_or_nan (mul x y) = true.
Proof. now destruct x, y. Qed.

Lemma mul_zero_r x y : is_zero y = true -> zero_or_nan (mul x y) = true.
Proof. now destruct x, y. Qed.

Lemma sub_zero_or_nan x y :
  zero_or_nan x = true -> zero_or_nan y = true -> zero_or_nan (sub x y) = true.
Proof. now destruct x as [[|]| | |], y as [[|]| | |]. Qed.

Lemma mul_zeros x y : is_zero x = true -> is_zero y = true -> is_zero (mul x y) = true.
Proof. now destruct x, y. Qed.

Lemma add_zeros x y : is_zero x = true -> is_zero y = true -> is_zero (add x y) = true.
Proof. now destruct x as [[|]| | |], y as [[|]| | |]. Qed.

Lemma sqrt_zero x : is_zero x = true -> is_zero (sqrt x) = true.
Proof. now destruct x. Qed.

(** Zero or NaN, divided by zero: NaN. *)
Lemma div_by_zero x y :
  zero_or_nan x = true -> is_zero y = true -> div x y = S754_nan.
Proof. now destruct x, y. Qed.

(** *** Signs *)

Lemma ltb_zero x : ltb x (of_Z 0) = negb (not_negative x).
Proof. now destruct x as [[|]|[|]| |[|] m e]. Qed.

Lemma sqrt_not_negative x : not_negative (sqrt x) = true.
Proof.
  destruct x as [[|]|[|]| |[|] m e]; try reflexivity.
  cbn. destruct (SFsqrt_core_binary prec emax (Z.pos m) e) as [[mz ez] lz].
  apply round_aux_sign.
Qed.

Lemma div_not_negative x y :
  not_negative x = true -> positive_sign y = true ->
  not_negative (div x y) = true.
Proof.
  destruct x as [[|]|[|]| |[|] mx ex], y as [[|]|[|]| |[|] my ey];
    try discriminate; try reflexivity.
  intros _ _. cbn.
  destruct (SFdiv_core_binary prec emax (Z.pos mx) ex (Z.pos my) ey) as [[mz ez] lz].
  apply round_aux_sign.
Qed.

(** A norm that passes the test of [renormalize] is above zero. *)
Lemma long_enough x :
  not_negative x = true ->
  ltb (SFabs x) (of_Q (1 # 1000)) || neb x x = false ->
  positive_sign x = true.
Proof. now destruct x as [[|]|[|]| |[|] m e]. Qed.

(** *** Checks by enumeration *)

Lemma sf_eqb_eq x y : sf_eqb x y = true -> x = y.
Proof.
  destruct x as [s|s| |s m e], y as [s'|s'| |s' m' e']; cbn; try discriminate;
    try reflexivity.
  - intros H. apply eqb_prop in H. now subst.
  - intros H. apply eqb_prop in H. now subst.
  - intros H. apply andb_prop in H as [H He]. apply andb_prop in H as [Hs Hm].
    apply eqb_prop in Hs. apply Pos.eqb_eq in Hm. apply Z.eqb_eq in He.
    now subst.
Qed.

Lemma in_Zrange n : forall lo z,
  (lo <= z < lo + Z.of_nat n)%Z -> In z (Zrange lo n).
Proof.
  induction n as [|n IH]; intros lo z Hz; cbn [Zrange].
  - lia.
  - destruct (Z.eq_dec lo z) as [->|Hne]; [now left|].
    right. apply IH. lia.
Qed.

Lemma forall_Zrange (p : Z -> bool) lo len :
  forallb p (Zrange lo (Z.to_nat len)) = true ->
  forall z, (lo <= z < lo + len)%Z -> p z = true.
Proof.
  intros H z Hz. rewrite forallb_forall in H. apply H.
  apply in_Zrange. lia.
Qed.

(** An [int16] divided by the count 1 is itself. *)
Lemma div_one_int16 z :
  MachInt.in_int16 z -> div (of_Z z) (of_Z 1) = of_Z z.
Proof.
  intros Hz. apply sf_eqb_eq.
  apply (forall_Zrange (fun z => sf_eqb (div (of_Z z) (of_Z 1)) (of_Z z))
           (-32768) 65536).
  - vm_compute. reflexivity.
  - unfold MachInt.in_int16 in Hz. lia.
Qed.

(** [n] readings of 10, or of -10, average to it, for [n] up to 1024. *)
Lemma average_of_tens n :
  (1 <= n <= 1024)%Z ->
  div (of_Z (n * 10)) (of_Z n) = of_Z 10 /\
  div (of_Z (n * -10)) (of_Z n) = of_Z (-10).
Proof.
  intros Hn.
  pose proof (forall_Zrange
    (fun n => sf_eqb (div (of_Z (n * 10)) (of_Z n)) (of_Z 10)
              && sf_eqb (div (of_Z (n * -10)) (of_Z n)) (of_Z (-10)))
    1 1024) as H.
  specialize (H ltac:(vm_compute; reflexivity) n ltac:(lia)).
  apply andb_prop in H as [H1 H2]. split; now apply sf_eqb_eq.
Qed.

(** The literals [0.9] and [0.23] are of type [double] in the code: going
    through double precision gives the same [float]. *)
Lemma double_literals :
  binary_normalize prec emax 8106479329266893 (-53) false = of_Q (9 # 10) /\
  binary_normalize prec emax 8286623314361713 (-55) false = of_Q (23 # 100) /\
  SFdiv 53 1024 (binary_normalize 53 1024 9 0 false) (binary_normalize 53 1024 10 0 false)
  = S754_finite false 8106479329266893 (-53) /\
  SFdiv 53 1024 (binary_normalize 53 1024 23 0 false) (binary_normalize 53 1024 100 0 false)
  = S754_finite false 8286623314361713 (-55).
Proof. repeat split. Qed.
End Binary32Facts.

(** ** The FIFOs *)

Section Fifo.
Context {T : Type} (axes : T -> ivec3).
Implicit Types fifo rest : list (option T).
Local Open Scope Z_scope.



Lemma spin_read_starved fifo :
  ~ delivers fifo -> spin_read fifo = None.
Proof.
  induction fifo as [|[x|] fifo IH]; cbn; intros Hn.
  - reflexivity.
  - exfalso. apply Hn. exists x. now left.
  - apply IH. intros [s Hs]. apply Hn. exists s. now right.
Qed.

Lemma spin_read_blank k (fifo : list (option T)) :
  spin_read (repeat None k ++ fifo) = spin_read fifo.
Proof. induction k; cbn; auto. Qed.



(** [n + 1] readings of the same sample [s], then no data. *)
Lemma drain_fifo_repeat s n rest : forall count a0 a1 a2,
  let '(x, y, z) := axes s in
  MachInt.in_int16 x -> MachInt.in_int16 y -> MachInt.in_int16 z ->
  0 <= count -> count + Z.of_nat n < 2 ^ 31 - 1 ->
  Z.abs a0 + (Z.of_nat n + 1) * 32768 < 2 ^ 31 ->
  Z.abs a1 + (Z.of_nat n + 1) * 32768 < 2 ^ 31 ->
  Z.abs a2 + (Z.of_nat n + 1) * 32768 < 2 ^ 31 ->
  drain_fifo axes (repeat (Some s) n ++ None :: rest) s count (a0, a1, a2)
  = (s, count + Z.of_nat n + 1,
     (a0 + (Z.of_nat n + 1) * x, a1 + (Z.of_nat n + 1) * y,
      a2 + (Z.of_nat n + 1) * z), rest).
Proof.
  destruct (axes s) as [[x y] z] eqn:Hax.
  induction n as [|n IH]; intros count a0 a1 a2 Hx Hy Hz Hc Hn H0 H1 H2;
    unfold MachInt.in_int16 in *;
    cbn [repeat app drain_fifo]; rewrite Hax; cbv beta iota.
    all: rewrite !MachIntFacts.int32_small by lia.
  - pairs_eq; lia.
  - rewrite IH by lia. pairs_eq; lia.
Qed.

(** Any samples, then no data: the count is their number and the
    accumulators hold the sum of each raw axis. *)
Lemma drain_fifo_sums rest samples : forall cur count a0 a1 a2,
  Forall (fun s => let '(x, y, z) := axes s in
            MachInt.in_int16 x /\ MachInt.in_int16 y /\ MachInt.in_int16 z)
         (cur :: samples) ->
  0 <= count -> count + Z.of_nat (length samples) < 2 ^ 31 - 1 ->
  Z.abs a0 + (Z.of_nat (length samples) + 1) * 32768 < 2 ^ 31 ->
  Z.abs a1 + (Z.of_nat (length samples) + 1) * 32768 < 2 ^ 31 ->
  Z.abs a2 + (Z.of_nat (length samples) + 1) * 32768 < 2 ^ 31 ->
  let '(_, count', accum, rest') :=
    drain_fifo axes (map Some samples ++ None :: rest) cur count (a0, a1, a2) in
  count' = count + Z.of_nat (length samples) + 1 /\
  accum = (a0 + sum_of (fun s => fst (fst (axes s))) (cur :: samples),
           a1 + sum_of (fun s => snd (fst (axes s))) (cur :: samples),
           a2 + sum_of (fun s => snd (axes s)) (cur :: samples)) /\
  rest' = rest.
Proof.
  induction samples as [|next samples IH];
    intros cur count a0 a1 a2 Hall Hc Hn H0 H1 H2;
    inversion Hall as [|? ? Hcur Hall']; subst;
    cbn [map app drain_fifo length sum_of fold_right] in *;
    destruct (axes cur) as [[x y] z] eqn:Hax; cbn [fst snd];
    destruct Hcur as (Hx & Hy & Hz); unfold MachInt.in_int16 in Hx, Hy, Hz;
    rewrite !MachIntFacts.int32_small by lia.
  - repeat split; pairs_eq; lia.
  - specialize (IH next (count + 1) (a0 + x) (a1 + y) (a2 + z) Hall').
    destruct (drain_fifo axes (map Some samples ++ None :: rest) next
                (count + 1) (a0 + x, a1 + y, a2 + z)) as [[[? c'] acc'] r'].
    destruct IH as (-> & -> & ->); try lia.
    cbn [sum_of fold_right]. repeat split; pairs_eq; lia.
Qed.

Lemma read_fifo_repeat k s n rest :
  let '(x, y, z) := axes s in
  MachInt.in_int16 x -> MachInt.in_int16 y -> MachInt.in_int16 z ->
  Z.of_nat n < 65535 ->
  read_fifo axes (repeat None k ++ repeat (Some s) (S n) ++ None :: rest)
  = Some (s, Z.of_nat n + 1,
          ((Z.of_nat n + 1) * x, (Z.of_nat n + 1) * y, (Z.of_nat n + 1) * z), rest).
Proof.
  pose proof (@drain_fifo_repeat s n rest 0 0 0 0) as H.
  destruct (axes s) as [[x y] z]. intros Hx Hy Hz Hn.
  unfold read_fifo. rewrite spin_read_blank. cbn [repeat app spin_read].
  rewrite H by (auto; cbn; lia). reflexivity.
Qed.

Lemma last_cons (x : T) l d : last (x :: l) d = last l x.
Proof.
  revert x d. induction l as [|y l IH]; intros x d; [reflexivity|].
  change (last (x :: y :: l) d) with (last (y :: l) d). now rewrite !IH.
Qed.

(** The sample left in the buffer after the drain is the last one read. *)
Lemma drain_fifo_last rest samples :
  forall cur count accum,
    fst (fst (fst (drain_fifo axes (map Some samples ++ None :: rest) cur count accum)))
    = last samples cur.
Proof.
  induction samples as [|next samples IH]; intros cur count [[a0 a1] a2];
    cbn [map app drain_fifo]; destruct (axes cur) as [[x y] z].
  - reflexivity.
  - rewrite IH. symmetry. apply last_cons.
Qed.

(** Empty polls, then any samples, then no data: what a tick reads. *)
Lemma read_fifo_sums k first samples rest :
  Forall (fun s => let '(x, y, z) := axes s in
            MachInt.in_int16 x /\ MachInt.in_int16 y /\ MachInt.in_int16 z)
         (first :: samples) ->
  Z.of_nat (length samples) < 65535 ->
  read_fifo axes (repeat None k ++ map Some (first :: samples) ++ None :: rest)
  = Some (last samples first, Z.of_nat (length (first :: samples)),
          (sum_of (fun s => fst (fst (axes s))) (first :: samples),
           sum_of (fun s => snd (fst (axes s))) (first :: samples),
           sum_of (fun s => snd (axes s)) (first :: samples)),
          rest).
Proof.
  intros Hall Hlen. unfold read_fifo.
  rewrite spin_read_blank. cbn [map app spin_read].
  pose proof (drain_fifo_sums rest samples first 0 0 0 0) as Hd.
  pose proof (drain_fifo_last rest samples first 0 (0, 0, 0)) as Hl.
  destruct (drain_fifo axes (map Some samples ++ None :: rest) first 0 (0, 0, 0))
    as [[[cur count] accum] rest'].
  cbn [fst] in Hl. subst cur.
  destruct Hd as (-> & -> & ->); try (cbn; lia); [exact Hall|].
  cbn [length]. do 4 f_equal; lia.
Qed.
End Fifo.

(** ** The sensor acquisition loop *)

Section SensorsFacts.
Context {F : Type} {FA : FloatArith F}.
Implicit Types st : state F.

Lemma send_accels_frame a st :
  tun (send_accels a st) = tun st /\
  gyroQueue (send_accels a st) = gyroQueue st /\
  Accels (send_accels a st) = Accels st /\
  mpu6000_fifo (send_accels a st) = mpu6000_fifo st /\
  mpu6000_scale (send_accels a st) = mpu6000_scale st.
Proof.
  unfold send_accels, xQueueSendToBack.
  destruct (length (accelQueue st) <? SENSOR_QUEUE_SIZE)%nat; cbn; auto.
Qed.

(** The accelerometer half leaves the gyro side of the state alone. *)
Lemma update_accels_frame st st1 :
  update_accels st = Some st1 ->
  tun st1 = tun st /\ gyroQueue st1 = gyroQueue st /\
  mpu6000_fifo st1 = mpu6000_fifo st /\ mpu6000_scale st1 = mpu6000_scale st.
Proof.
  unfold update_accels. intros H.
  destruct (read_fifo bma_axes (bma180_fifo st)) as [[[[accel count] accum] fifo]|];
    [|discriminate].
  injection H as <-.
  match goal with |- context [send_accels ?a ?s] =>
    destruct (send_accels_frame a s) as (-> & -> & _ & -> & ->) end.
  cbn. auto.
Qed.

Lemma send_gyros_queue g st :
  ((length (gyroQueue st) < SENSOR_QUEUE_SIZE)%nat ->
     gyroQueue (send_gyros g st) = gyroQueue st ++ [g]) /\
  ((SENSOR_QUEUE_SIZE <= length (gyroQueue st))%nat ->
     gyroQueue (send_gyros g st) = gyroQueue st) /\
  tun (send_gyros g st) = tun st.
Proof.
  unfold send_gyros, xQueueSendToBack.
  destruct (Nat.ltb_spec (length (gyroQueue st)) SENSOR_QUEUE_SIZE); cbn;
    (split; [|split]); intros; auto; lia.
Qed.

Lemma send_gyros_fifo g fifo st :
  gyroQueue (send_gyros g (set_mpu6000_fifo fifo st)) = gyroQueue (send_gyros g st) /\
  tun (send_gyros g (set_mpu6000_fifo fifo st)) = tun st.
Proof.
  unfold send_gyros, xQueueSendToBack.
  change (gyroQueue (set_mpu6000_fifo fifo st)) with (gyroQueue st).
  destruct (length (gyroQueue st) <? SENSOR_QUEUE_SIZE)%nat; auto.
Qed.

Lemma read_mag_frame st :
  tun (read_mag st) = tun st /\ gyroQueue (read_mag st) = gyroQueue st /\
  accelQueue (read_mag st) = accelQueue st /\
  Gyros (read_mag st) = Gyros st /\ Accels (read_mag st) = Accels st /\
  alarm_ATTITUDE (read_mag st) = alarm_ATTITUDE st.
Proof.
  unfold read_mag. destruct (hmc5883 st) as [|[[[v0 v1] v2]|] later]; cbn; auto 10.
Qed.

(** What the gyro half does to the queue, the bus and the bias. *)
Lemma update_gyros_spec st st2 :
  update_gyros st = Some st2 ->
  exists gyro count accum fifo,
    read_fifo mpu_axes (mpu6000_fifo st) = Some (gyro, count, accum, fifo) /\
    let g := gyros_of (mpu6000_scale st) (averages accum (MachInt.uint32 count))
               (mpu_temperature gyro) in
    gyroQueue st2 = gyroQueue (send_gyros g st) /\
    Gyros st2 = bias_corrected (tun st) g /\
    tun st2 = yaw_bias_leak (Gyros_z (bias_corrected (tun st) g)) (tun st).
Proof.
  unfold update_gyros. intros H.
  destruct (read_fifo mpu_axes (mpu6000_fifo st)) as [[[[gyro count] accum] fifo]|];
    [|discriminate].
  injection H as <-. exists gyro, count, accum, fifo. split; [reflexivity|].
  cbn -[send_gyros bias_corrected yaw_bias_leak gyros_of averages].
  destruct (send_gyros_fifo (gyros_of (mpu6000_scale st)
    (averages accum (MachInt.uint32 count)) (mpu_temperature gyro)) fifo st) as (-> & ->).
  auto.
Qed.

Lemma updateSensors_Ret st r st' :
  updateSensors st = Ret r st' ->
  r = 0%Z /\
  exists st1 st2,
    update_accels st = Some st1 /\ update_gyros st1 = Some st2 /\ st' = read_mag st2.
Proof.
  unfold updateSensors. intros H.
  destruct (update_accels st) as [st1|]; [|discriminate].
  destruct (update_gyros st1) as [st2|] eqn:Hg; [|discriminate].
  injection H as <- <-. split; [reflexivity|]. now exists st1, st2.
Qed.
End SensorsFacts.

Section SensorTaskFacts.
Context {F : Type} {FA : FloatArith F}.
Implicit Types st : state F.

Lemma select_gains_frame t1 t2 init st :
  let st' := snd (select_gains t1 t2 init st) in
  bma180_fifo st' = bma180_fifo st /\ mpu6000_fifo st' = mpu6000_fifo st /\
  gyroQueue st' = gyroQueue st /\ accelQueue st' = accelQueue st /\
  AttitudeSettings st' = AttitudeSettings st /\ FlightStatus st' = FlightStatus st.
Proof.
  unfold select_gains.
  destruct ((t1 <? 7000)%Z && (t2 >? 1000)%Z);
    [|destruct (zero_during_arming (tun st) && is_arming (FlightStatus st));
      [|destruct (init =? 0)%Z]]; cbn; auto 10.
Qed.


Lemma update_gyros_None st :
  update_gyros st = None <-> spin_read (mpu6000_fifo st) = None.
Proof.
  unfold update_gyros, read_fifo.
  destruct (spin_read (mpu6000_fifo st)) as [[first fifo]|].
  - destruct (drain_fifo mpu_axes fifo first 0 (0, 0, 0)%Z) as [[[? ?] ?] ?].
    split; discriminate.
  - tauto.
Qed.

End SensorTaskFacts.

Section AccelFacts.
Context {F : Type} {FA : FloatArith F}.
Implicit Types st : state F.

Lemma send_accels_queue a st :
  ((length (accelQueue st) < SENSOR_QUEUE_SIZE)%nat ->
     accelQueue (send_accels a st) = accelQueue st ++ [a]) /\
  ((SENSOR_QUEUE_SIZE <= length (accelQueue st))%nat ->
     accelQueue (send_accels a st) = accelQueue st) /\
  Accels (send_accels a st) = Accels st.
Proof.
  unfold send_accels, xQueueSendToBack.
  destruct (Nat.ltb_spec (length (accelQueue st)) SENSOR_QUEUE_SIZE); cbn;
    (split; [|split]); intros; auto; lia.
Qed.

(** What the accelerometer half sends. *)
Lemma update_accels_spec st accel count accum fifo :
  read_fifo bma_axes (bma180_fifo st) = Some (accel, count, accum, fifo) ->
  exists st1,
    update_accels st = Some st1 /\
    Accels st1 = accels_of (tun st) (bma180_scale st)
                   (averages accum (MachInt.uint32 count)) (bma_temperature accel).
Proof.
  intros Hread. unfold update_accels. rewrite Hread.
  eexists. split; [reflexivity|].
  match goal with |- context [send_accels ?a ?s] =>
    destruct (send_accels_queue a s) as (_ & _ & ->) end.
  reflexivity.
Qed.

Lemma update_gyros_Accels st st2 :
  update_gyros st = Some st2 -> Accels st2 = Accels st.
Proof.
  unfold update_gyros. intros H.
  destruct (read_fifo mpu_axes (mpu6000_fifo st)) as [[[[gyro count] accum] fifo]|];
    [|discriminate].
  injection H as <-. unfold send_gyros, xQueueSendToBack.
  cbn -[Nat.ltb averages gyros_of].
  destruct (length (gyroQueue st) <? SENSOR_QUEUE_SIZE)%nat; reflexivity.
Qed.

(** The accelerometer object is sent before the gyro FIFO is polled: it
    is the same whether or not the tick returns. *)
Lemma updateSensors_Accels st st1 :
  update_accels st = Some st1 ->
  match updateSensors st with
  | Ret _ st' | Hang st' => Accels st' = Accels st1
  end.
Proof.
  intros Ha. unfold updateSensors. rewrite Ha.
  destruct (update_gyros st1) as [st2|] eqn:Hg; [|reflexivity].
  destruct (read_mag_frame st2) as (_ & _ & _ & _ & -> & _).
  now apply update_gyros_Accels.
Qed.
End AccelFacts.


(** ** Claims on the sensor acquisition loop *)

Section Gyro.
Local Open Scope float_scope.

Lemma leak_as_subtraction (bz z_out rate : Binary32.t) :
  bz + (- z_out) * rate = bz - z_out * rate.
Proof.
  cbn. rewrite Binary32Facts.mul_opp_l. apply Binary32Facts.add_opp_r.
Qed.

(** C6.  On a completed tick the sample offered to the gyro queue is the
    scaled average [g], in which the bias does not enter; the object on the
    bus is [g] plus [gyro_bias] when [bias_correct_gyro] is set; and the
    z bias becomes [bz - z_out * yawBiasRate] with [z_out] the z rate on
    the bus. *)
Theorem gyro_queue_raw_bus_corrected (st st' : state Binary32.t) (r : Z) :
  updateSensors st = Ret r st' ->
  exists g : GyrosData Binary32.t,
    (exists gyro count accum fifo,
        read_fifo mpu_axes (mpu6000_fifo st) = Some (gyro, count, accum, fifo) /\
        g = gyros_of (mpu6000_scale st) (averages accum (MachInt.uint32 count))
              (mpu_temperature gyro)) /\
    ((length (gyroQueue st) < SENSOR_QUEUE_SIZE)%nat ->
       gyroQueue st' = gyroQueue st ++ [g]) /\
    ((SENSOR_QUEUE_SIZE <= length (gyroQueue st))%nat ->
       gyroQueue st' = gyroQueue st) /\
    let '(b0, b1, b2) := gyro_bias (tun st) in
    (bias_correct_gyro (tun st) = true ->
       Gyros st' = {| Gyros_x := Gyros_x g + b0; Gyros_y := Gyros_y g + b1;
                      Gyros_z := Gyros_z g + b2;
                      Gyros_temperature := Gyros_temperature g |}) /\
    (bias_correct_gyro (tun st) = false -> Gyros st' = g) /\
    gyro_bias (tun st') = (b0, b1, b2 - Gyros_z (Gyros st') * yawBiasRate (tun st)).
Proof.
  intros H. apply updateSensors_Ret in H as (_ & st1 & st2 & Ha & Hg & ->).
  apply update_accels_frame in Ha as (Htun & Hq & Hfifo & Hscale).
  apply update_gyros_spec in Hg as (gyro & count & accum & fifo & Hread & Hqueue & Hbus & Hleak).
  rewrite Hfifo, Hscale, Htun in *.
  set (g := gyros_of _ _ _) in *.
  destruct (read_mag_frame st2) as (-> & -> & _ & -> & _).
  exists g. split; [now exists gyro, count, accum, fifo|].
  destruct (send_gyros_queue g st1) as (Hroom & Hfull & _).
  rewrite Hq in *. rewrite Hqueue, Hbus, Hleak.
  split; [exact Hroom|]. split; [exact Hfull|].
  unfold bias_corrected, yaw_bias_leak.
  destruct (gyro_bias (tun st)) as [[b0 b1] b2] eqn:Hb.
  destruct (bias_correct_gyro (tun st)); cbn [tun_set_gyro_bias gyro_bias Gyros_z];
    (split; [intros; try reflexivity; discriminate|]);
    (split; [intros; try reflexivity; discriminate|]);
    now rewrite leak_as_subtraction.
Qed.
End Gyro.

Lemma gyro_queue_raw_bus_corrected_witness :
  exists st',
    updateSensors Scenario.turning = Ret 0%Z st' /\
    (exists g, gyroQueue st' = gyroQueue Scenario.turning ++ [g]) /\
    gyro_bias (tun st')
    = (of_int 1, of_int 1,
       fsub (of_int 1) (fmul (Gyros_z (Gyros st')) (of_lit (23 # 100)))).
Proof.
  eexists. split; [vm_compute; reflexivity|].
  destruct (gyro_queue_raw_bus_corrected Scenario.turning _ 0%Z
              ltac:(vm_compute; reflexivity))
    as (g & _ & Hroom & _ & Hbus).
  split.
  - exists g. apply Hroom. apply Nat.ltb_lt. reflexivity.
  - cbn [tun Scenario.turning Scenario.bench set_tun set_bma180_fifo set_mpu6000_fifo
         gyro_bias tun_set_gyro_bias] in Hbus.
    destruct Hbus as (_ & _ & Hleak). exact Hleak.
Defined.

Section Starvation.
Context {F : Type} {FA : FloatArith F}.

End Starvation.



Section Remap.
Import Binary32 Binary32Facts.
Local Open Scope float_scope.
Implicit Types st : state Binary32.t.

(** One sample [(a, b, c)] averages to [(b, a, -c)]. *)
Lemma averages_single a b c :
  MachInt.in_int16 a -> MachInt.in_int16 b -> MachInt.in_int16 c ->
  averages (F := Binary32.t) (a, b, c) (MachInt.uint32 1)
  = (of_int b, of_int a, - of_int c).
Proof.
  intros Ha Hb Hc. unfold averages. cbn.
  change (div ?x (of_Z (MachInt.uint32 1))) with (div x (of_Z 1)).
  rewrite div_opp_l, !div_one_int16 by assumption. reflexivity.
Qed.

(** What the accelerometer half publishes from the samples of a tick. *)
Lemma update_accels_means st k first samples later :
  Forall bma_in_range (first :: samples) ->
  (Z.of_nat (length samples) < 65535)%Z ->
  bma180_fifo st = repeat None k ++ map Some (first :: samples) ++ None :: later ->
  exists st1,
    update_accels st = Some st1 /\
    Accels st1
    = accels_of (tun st) (bma180_scale st)
        (remapped_means bma_x bma_y bma_z (first :: samples))
        (bma_temperature (last samples first)).
Proof.
  intros Hall Hlen Hfifo.
  pose proof (read_fifo_sums bma_axes k first samples later) as Hread.
  rewrite <- Hfifo in Hread.
  destruct (update_accels_spec st _ _ _ _ (Hread Hall Hlen)) as (st1 & Hst1 & HA).
  exists st1. split; [exact Hst1|]. rewrite HA.
  rewrite MachIntFacts.uint32_small by (cbn [length]; lia). reflexivity.
Qed.

(** What the gyro half queues from the samples of a tick. *)
Lemma update_gyros_means st k first samples later :
  Forall mpu_in_range (first :: samples) ->
  (Z.of_nat (length samples) < 65535)%Z ->
  mpu6000_fifo st = repeat None k ++ map Some (first :: samples) ++ None :: later ->
  exists st2,
    update_gyros st = Some st2 /\
    gyroQueue st2
    = gyroQueue
        (send_gyros
           (gyros_of (mpu6000_scale st)
              (remapped_means gyro_x gyro_y gyro_z (first :: samples))
              (mpu_temperature (last samples first))) st).
Proof.
  intros Hall Hlen Hfifo.
  pose proof (read_fifo_sums mpu_axes k first samples later Hall Hlen) as Hread.
  rewrite <- Hfifo in Hread.
  destruct (update_gyros st) as [st2|] eqn:Hst2.
  2: { apply update_gyros_None in Hst2. unfold read_fifo in Hread.
       now rewrite Hst2 in Hread. }
  exists st2. split; [reflexivity|].
  apply update_gyros_spec in Hst2
    as (gyro & count & accum & fifo & Hread' & Hqueue & _).
  rewrite Hread in Hread'. injection Hread' as <- <- <- <-.
  rewrite Hqueue.
  rewrite MachIntFacts.uint32_small by (cbn [length]; lia). reflexivity.
Qed.

(** One sample: the means are the sample itself, remapped. *)
Lemma remapped_means_single {T : Type} (x y z : T -> Z) (s : T) :
  MachInt.in_int16 (x s) -> MachInt.in_int16 (y s) -> MachInt.in_int16 (z s) ->
  remapped_means (F := Binary32.t) x y z [s]
  = (of_int (y s), of_int (x s), - of_int (z s)).
Proof.
  intros Hx Hy Hz. unfold remapped_means, sum_of. cbn [fold_right length Z.of_nat].
  rewrite !Z.add_0_r. cbn [fdiv fneg of_int binary32].
  change (Z.pos (Pos.of_succ_nat 0)) with 1%Z.
  rewrite div_opp_l, !div_one_int16 by assumption. reflexivity.
Qed.

(** C9.  A tick that reads any number of accelerometer samples and any
    number of gyro samples, fewer than 65536 of each, every axis within 16
    bits.  The averages are the sums over the samples read divided by
    their number, with [x] taken from the raw [y], [y] from the raw [x]
    and [z] from the negated raw [z], for the accelerometer and for the
    gyro alike.  The accelerometer object is those averages less the bias,
    times the scale, so the averages times the scale when there is no
    bias; the gyro sample queued for the estimator is the averages times
    the scale.  When a single sample [(a, b, c)] is read the averages are
    [(b, a, -c)] exactly. *)
Theorem axis_remap st k k' first samples first' samples' later later' :
  Forall bma_in_range (first :: samples) ->
  Forall mpu_in_range (first' :: samples') ->
  (Z.of_nat (length samples) < 65535)%Z ->
  (Z.of_nat (length samples') < 65535)%Z ->
  bma180_fifo st = repeat None k ++ map Some (first :: samples) ++ None :: later ->
  mpu6000_fifo st
  = repeat None k' ++ map Some (first' :: samples') ++ None :: later' ->
  let '(v0, v1, v2) := remapped_means bma_x bma_y bma_z (first :: samples) in
  let '(w0, w1, w2) := remapped_means gyro_x gyro_y gyro_z (first' :: samples') in
  exists st',
    updateSensors st = Ret 0%Z st' /\
    (let '(b0, b1, b2) := accelbias (tun st) in
     let scale := bma180_scale st in
     Accels_x (Accels st') = (v0 - of_int b0) * scale /\
     Accels_y (Accels st') = (v1 - of_int b1) * scale /\
     Accels_z (Accels st') = (v2 - of_int b2) * scale) /\
    (accelbias (tun st) = (0, 0, 0)%Z ->
     let scale := bma180_scale st in
     Accels_x (Accels st') = v0 * scale /\
     Accels_y (Accels st') = v1 * scale /\
     Accels_z (Accels st') = v2 * scale) /\
    ((length (gyroQueue st) < SENSOR_QUEUE_SIZE)%nat ->
     let scale := mpu6000_scale st in
     exists g,
       gyroQueue st' = gyroQueue st ++ [g] /\
       Gyros_x g = w0 * scale /\
       Gyros_y g = w1 * scale /\
       Gyros_z g = w2 * scale) /\
    (samples = [] ->
     (v0, v1, v2) = (of_int (bma_y first), of_int (bma_x first), - of_int (bma_z first))) /\
    (samples' = [] ->
     (w0, w1, w2)
     = (of_int (gyro_y first'), of_int (gyro_x first'), - of_int (gyro_z first'))).
Proof.
  intros Hall Hall' Hlen Hlen' Hbma Hmpu.
  destruct (update_accels_means st k first samples later Hall Hlen Hbma)
    as (st1 & Hst1 & HAccels).
  destruct (update_accels_frame _ _ Hst1) as (Htun & Hq & Hfifo & Hscale).
  rewrite <- Hfifo in Hmpu.
  destruct (update_gyros_means st1 k' first' samples' later' Hall' Hlen' Hmpu)
    as (st2 & Hst2 & Hqueue).
  pose proof (updateSensors_Accels st st1 Hst1) as HA.
  assert (Hret : updateSensors st = Ret 0%Z (read_mag st2)).
  { unfold updateSensors. now rewrite Hst1, Hst2. }
  rewrite Hret in HA. rewrite Hscale in Hqueue.
  pose proof (@remapped_means_single _ bma_x bma_y bma_z first) as Hone.
  pose proof (@remapped_means_single _ gyro_x gyro_y gyro_z first') as Hone'.
  destruct (remapped_means bma_x bma_y bma_z (first :: samples))
    as [[v0 v1] v2] eqn:Hv.
  destruct (remapped_means gyro_x gyro_y gyro_z (first' :: samples'))
    as [[w0 w1] w2] eqn:Hw.
  exists (read_mag st2). split; [exact Hret|].
  rewrite HA, HAccels. unfold accels_of.
  destruct (accelbias (tun st)) as [[b0 b1] b2].
  split; [cbn; auto|]. split; [|split; [|split]].
  - intros Hb0. injection Hb0 as -> -> ->. cbn [Accels_x Accels_y Accels_z].
    change (fsub ?x (of_int 0)) with (sub x (of_Z 0)).
    now rewrite !sub_zero_r.
  - intros Hroom.
    destruct (read_mag_frame st2) as (_ & -> & _).
    match type of Hqueue with _ = gyroQueue (send_gyros ?g _) =>
      destruct (send_gyros_queue g st1) as (Hsend & _) end.
    rewrite Hq in Hsend. rewrite Hqueue, Hsend by exact Hroom.
    eexists. split; [reflexivity|]. cbn. auto.
  - intros ->. rewrite <- Hv. inversion Hall as [|? ? (Hx & Hy & Hz) _]; subst.
    now apply Hone.
  - intros ->. rewrite <- Hw. inversion Hall' as [|? ? (Hx & Hy & Hz) _]; subst.
    now apply Hone'.
Qed.
End Remap.

Section BiasCancellation.
Import Binary32 Binary32Facts.
Local Open Scope float_scope.
Implicit Types st : state Binary32.t.

(** C8, as the code has it.  The bias is taken off after the channels are
    swapped: with [accelbias = (10, -10, 0)], readings with [y = 10] and
    [x = -10], up to 1024 of them in a tick, give an accelerometer object
    with [x] and [y] zero, whatever [z], for a finite scale; the object is
    sent whether or not the gyro FIFO then gives a sample. *)
Theorem accel_bias_cancels_after_swap st k n c T later :
  accelbias (tun st) = (10, -10, 0)%Z ->
  (n < 1024)%nat ->
  MachInt.in_int16 c ->
  is_finite (bma180_scale st) = true ->
  bma180_fifo st
  = repeat None k
    ++ repeat (Some {| bma_x := -10; bma_y := 10; bma_z := c; bma_temperature := T |}) (S n)
    ++ None :: later ->
  match updateSensors st with
  | Ret _ st' | Hang st' =>
      is_zero (Accels_x (Accels st')) = true /\
      is_zero (Accels_y (Accels st')) = true
  end.
Proof.
  intros Hbias Hn Hc Hscale Hfifo.
  set (s := {| bma_x := -10; bma_y := 10; bma_z := c; bma_temperature := T |}) in *.
  pose proof (read_fifo_repeat bma_axes k s n later) as Hread.
  cbn [bma_axes bma_x bma_y bma_z s] in Hread.
  specialize (Hread ltac:(unfold MachInt.in_int16; lia)
                    ltac:(unfold MachInt.in_int16; lia) Hc ltac:(lia)).
  rewrite <- Hfifo in Hread.
  destruct (update_accels_spec st _ _ _ _ Hread) as (st1 & Hst1 & HAccels).
  pose proof (updateSensors_Accels st st1 Hst1) as HA.
  assert (Hzero : is_zero (Accels_x (Accels st1)) = true /\
                  is_zero (Accels_y (Accels st1)) = true).
  { rewrite HAccels. unfold accels_of, averages. rewrite Hbias.
    cbn [Accels_x Accels_y].
    rewrite MachIntFacts.uint32_small by lia.
    destruct (average_of_tens (Z.of_nat n + 1) ltac:(lia)) as [Hy Hx].
    cbn [fdiv fsub fmul of_int binary32].
    rewrite Hx, Hy. split; now apply mul_zero_finite. }
  destruct (updateSensors st) as [r st'|st']; now rewrite HA.
Qed.
End BiasCancellation.

(** C8, as stated, fails: with [accelbias = (10, -10, 0)] and the reading
    [(10, -10, 5)] the object sent has [x = -20] and [y = 20] (scale 1),
    the [x] bias being taken off the [y] reading. *)
Lemma accel_bias_meets_swapped_axes :
  accelbias (tun Scenario.biased) = (10, -10, 0)%Z /\
  exists st',
    updateSensors Scenario.biased = Ret 0%Z st' /\
    Accels_x (Accels st') = of_int (-20) /\
    Accels_y (Accels st') = of_int 20 /\
    Binary32.is_zero (Accels_x (Accels st')) = false /\
    Binary32.is_zero (Accels_y (Accels st')) = false.
Proof.
  split; [reflexivity|]. eexists. split; [vm_compute; reflexivity|].
  repeat split.
Qed.


Lemma axis_remap_witness :
  exists st',
    updateSensors Case.two_of_each = Ret 0%Z st' /\
    Accels_x (Accels st') = fmul (fdiv (of_int 6) (of_int 2)) (of_int 1) /\
    Accels_y (Accels st') = fmul (fdiv (of_int 4) (of_int 2)) (of_int 1) /\
    Accels_z (Accels st') = fmul (fdiv (fneg (of_int 8)) (of_int 2)) (of_int 1) /\
    exists g,
      gyroQueue st' = [g] /\
      Gyros_x g = fmul (fdiv (of_int 14) (of_int 2)) (of_int 1) /\
      Gyros_y g = fmul (fdiv (of_int 10) (of_int 2)) (of_int 1) /\
      Gyros_z g = fmul (fdiv (fneg (of_int 4)) (of_int 2)) (of_int 1).
Proof.
  pose proof (axis_remap Case.two_of_each 1 0
                Case.first_reading [Case.second_reading]
                Case.first_rate [Case.second_rate] [] []) as H.
  cbv zeta in H.
  destruct H as (st' & Hret & _ & Hplain & Hqueue & _).
  - repeat constructor; cbn; lia.
  - repeat constructor; cbn; lia.
  - cbn. lia.
  - cbn. lia.
  - reflexivity.
  - reflexivity.
  - exists st'. split; [exact Hret|].
    destruct (Hplain eq_refl) as (Hx & Hy & Hz).
    split; [exact Hx|]. split; [exact Hy|]. split; [exact Hz|].
    apply Hqueue. apply Nat.ltb_lt. reflexivity.
Defined.

Lemma accel_bias_cancels_after_swap_witness :
  match updateSensors Scenario.biased_swapped with
  | Ret _ st' | Hang st' =>
      Binary32.is_zero (Accels_x (Accels st')) = true /\
      Binary32.is_zero (Accels_y (Accels st')) = true
  end.
Proof.
  apply (accel_bias_cancels_after_swap Scenario.biased_swapped 2 2 5 2 []).
  - reflexivity.
  - lia.
  - unfold MachInt.in_int16. lia.
  - reflexivity.
  - reflexivity.
Defined.

(** ** Claims on the modes of the sensor task *)

Section Modes.
Context {F : Type} {FA : FloatArith F}.
Implicit Types st : state F.

End Modes.



Section Nominal.
Context {F : Type} {FA : FloatArith F}.
Implicit Types st : state F.

(** A tick changes no gain: of the tuning variables it writes the gyro
    bias only. *)
Lemma updateSensors_gains st r st' :
  updateSensors st = Ret r st' -> gains (tun st') = gains (tun st).
Proof.
  intros H. apply updateSensors_Ret in H as (_ & st1 & st2 & Ha & Hg & ->).
  apply update_accels_frame in Ha as (Htun & _).
  apply update_gyros_spec in Hg as (gyro & count & accum & fifo & _ & _ & _ & Hleak).
  destruct (read_mag_frame st2) as (-> & _).
  rewrite Hleak, Htun. unfold yaw_bias_leak.
  now destruct (gyro_bias (tun st)) as [[b0 b1] b2].
Qed.

(** Once the settings are read, the turns that follow out of the
    bootstrap window and out of arming read them no more: [init] stays at
    1 and the gains stay. *)
Lemma nominal_turn_keeps_gains t st init' st' :
  ~ (1000 < t < 7000)%Z ->
  zero_during_arming (tun st) && is_arming (FlightStatus st) = false ->
  SensorTask_turn t t 1 st = Ret init' st' ->
  init' = 1%Z /\ gains (tun st') = gains (tun st).
Proof.
  intros Ht Harm. unfold SensorTask_turn, select_gains. rewrite Harm.
  replace ((t <? 7000)%Z && (t >? 1000)%Z) with false
    by (destruct (Z.ltb_spec t 7000), (Z.gtb_spec t 1000); cbn; lia).
  cbn [Z.eqb]. destruct (updateSensors st) as [r st2|st2] eqn:Hu; [|discriminate].
  intros H. injection H as <- <-. split; [reflexivity|].
  apply updateSensors_gains in Hu. rewrite <- Hu.
  now destruct (r =? 0)%Z.
Qed.
End Nominal.

(** ** Claims on the board rotation *)

Section Rotation.
Context {F : Type} {FA : FloatArith F}.
Implicit Types st : state F.

Lemma update_accels_rotation rot R st :
  update_accels (with_rotation rot R st)
  = option_map (with_rotation rot R) (update_accels st).
Proof.
  unfold update_accels.
  change (bma180_fifo (with_rotation rot R st)) with (bma180_fifo st).
  destruct (read_fifo bma_axes (bma180_fifo st)) as [[[[accel count] accum] fifo]|];
    [|reflexivity].
  unfold send_accels, xQueueSendToBack. cbn [option_map].
  change (accelQueue (set_Accels ?a (set_bma180_fifo ?f (with_rotation rot R st))))
    with (accelQueue st).
  cbn -[Nat.ltb averages].
  destruct (length (accelQueue st) <? SENSOR_QUEUE_SIZE)%nat; reflexivity.
Qed.

Lemma update_gyros_rotation rot R st :
  update_gyros (with_rotation rot R st)
  = option_map (with_rotation rot R) (update_gyros st).
Proof.
  unfold update_gyros.
  change (mpu6000_fifo (with_rotation rot R st)) with (mpu6000_fifo st).
  destruct (read_fifo mpu_axes (mpu6000_fifo st)) as [[[[gyro count] accum] fifo]|];
    [|reflexivity].
  destruct (bias_correct_gyro (tun st)) eqn:Hb,
    (gyro_bias (tun st)) as [[b0 b1] b2] eqn:Hgb,
    (length (gyroQueue st) <? SENSOR_QUEUE_SIZE)%nat eqn:Hlen;
    unfold send_gyros, xQueueSendToBack, with_rotation, bias_corrected, yaw_bias_leak;
    cbn -[Nat.ltb averages gyros_of]; rewrite ?Hlen;
    cbn -[Nat.ltb averages gyros_of]; rewrite ?Hb, ?Hgb;
    cbn -[Nat.ltb averages gyros_of]; rewrite ?Hb, ?Hgb; reflexivity.
Qed.

Lemma read_mag_rotation rot R st :
  read_mag (with_rotation rot R st) = with_rotation rot R (read_mag st).
Proof.
  unfold read_mag. cbn [hmc5883 with_rotation set_tun].
  destruct (hmc5883 st) as [|[[[v0 v1] v2]|] later]; reflexivity.
Qed.

(** A board rotation that is not zero sets [rotate], whatever the
    conversions give for [R]. *)
Lemma settingsUpdatedCb_sets_rotate
    (RPY2Quaternion : vec3 F -> quat F) (Quaternion2R : quat F -> mat3 F) st :
  BoardRotation (AttitudeSettings st) <> (0, 0, 0)%Z ->
  rotate (tun (settingsUpdatedCb RPY2Quaternion Quaternion2R st)) = 1%Z.
Proof.
  unfold settingsUpdatedCb. intros Hrot.
  destruct (GyroBias (AttitudeSettings st)) as [[g0 g1] g2].
  destruct (BoardRotation (AttitudeSettings st)) as [[r0 r1] r2].
  cbn [tun set_tun rotate].
  destruct (Z.eqb_spec r0 0), (Z.eqb_spec r1 0), (Z.eqb_spec r2 0);
    cbn [andb]; try reflexivity.
  subst. now elim Hrot.
Qed.

(** C2, on the code.  [updateSensors] reads neither [rotate] nor [R]: with
    any rotation in the tuning variables it does the same, and what it
    sends and queues is the same. *)
Theorem updateSensors_ignores_rotation (rot : Z) (R : mat3 F) st :
  match updateSensors st, updateSensors (with_rotation rot R st) with
  | Ret r s, Ret r' s' =>
      r' = r /\ s' = with_rotation rot R s /\
      Accels s' = Accels s /\ Gyros s' = Gyros s /\
      accelQueue s' = accelQueue s /\ gyroQueue s' = gyroQueue s
  | Hang s, Hang s' => s' = with_rotation rot R s
  | _, _ => False
  end.
Proof.
  unfold updateSensors. rewrite update_accels_rotation.
  destruct (update_accels st) as [st1|]; cbn [option_map]; [|reflexivity].
  rewrite update_gyros_rotation.
  destruct (update_gyros st1) as [st2|]; cbn [option_map]; [|reflexivity].
  rewrite read_mag_rotation. repeat split; reflexivity.
Qed.
End Rotation.

(** C2, at one input: with [rotate] set and a quarter turn in [R], the
    reading [(0, 100, 0)] is sent as [(100, 0, -0)], the swapped channels
    and nothing more, where the rotation would give another triple. *)
Lemma rotated_board_sends_unrotated :
  rotate (tun Scenario.rotated_board) = 1%Z /\
  exists st',
    updateSensors Scenario.rotated_board = Ret 0%Z st' /\
    Accels_x (Accels st') = of_int 100 /\
    Accels_y (Accels st') = S754_zero false /\
    Accels_z (Accels st') = S754_zero true /\
    rot_mult (Rot (tun Scenario.rotated_board))
      (Accels_x (Accels st'), Accels_y (Accels st'), Accels_z (Accels st'))
    = (S754_zero false, of_int (-100), S754_zero false).
Proof.
  split; [reflexivity|]. eexists. split; [vm_compute; reflexivity|].
  repeat split.
Qed.

(** ** The estimator *)

Section EstimatorFacts.
Context {F : Type} {FA : FloatArith F}.
Variable Quaternion2RPY : quat F -> vec3 F.
Implicit Types st : state F.
Local Open Scope float_scope.

Lemma store_quat_quat q : quat_of (store_quat Quaternion2RPY q) = q.
Proof.
  destruct q as [[[q0 q1] q2] q3]. unfold store_quat, quat_copy, quat_of.
  now destruct (Quaternion2RPY _) as [[roll pitch] yaw].
Qed.

(** A step that finds a sample on each queue: what it leaves. *)
Lemma update_with_samples diff_us st g gq a aq :
  gyroQueue st = g :: gq ->
  accelQueue st = a :: aq ->
  let dT := of_int diff_us / of_lit 1000000 in
  let step := integrate (tun st) (quat_of (AttitudeActual st)) g a dT in
  exists st',
    updateAttitudeComplimentary Quaternion2RPY diff_us st = (0%Z, st') /\
    tun st' = fst step /\
    quat_of (AttitudeActual st') = renormalize (snd step) /\
    alarm_ATTITUDE st' = SYSTEMALARMS_ALARM_OK /\
    gyroQueue st' = gq /\ accelQueue st' = aq.
Proof.
  intros Hg Ha dT step.
  unfold updateAttitudeComplimentary, xQueueReceive. rewrite Hg.
  cbn [accelQueue set_gyroQueue]. rewrite Ha.
  cbn [AttitudeActual tun set_accelQueue set_gyroQueue]. unfold quat_copy.
  fold dT. fold step. destruct step as [tu q].
  eexists. split; [reflexivity|]. cbn. rewrite store_quat_quat. auto 10.
Qed.
End EstimatorFacts.

Section Timeout.
Context {F : Type} {FA : FloatArith F}.
Variable Quaternion2RPY : quat F -> vec3 F.
Implicit Types st : state F.

(** ** Claims on the estimator *)

(** C10.  When the gyro queue or the accel queue gives nothing within its
    timeout, [updateAttitudeComplimentary] raises the ATTITUDE alarm to
    ERROR and returns -1; the attitude object, with its quaternion, and
    the tuning variables, with the gyro bias, are as before.  The task
    strokes its watchdog flag and its next turn calls the function again. *)
Theorem queue_timeout_keeps_attitude (diff_us : Z) st :
  gyroQueue st = [] \/ accelQueue st = [] ->
  let '(r, st') := updateAttitudeComplimentary Quaternion2RPY diff_us st in
  r = (-1)%Z /\
  alarm_ATTITUDE st' = SYSTEMALARMS_ALARM_ERROR /\
  AttitudeActual st' = AttitudeActual st /\
  tun st' = tun st /\
  forall next clock,
    AttitudeTask_loop Quaternion2RPY (diff_us :: next :: clock) st
    = AttitudeTask_loop Quaternion2RPY clock
        (AttitudeTask_turn Quaternion2RPY next
           (set_wdg_ATTITUDE (S (wdg_ATTITUDE st')) st')).
Proof.
  intros Hq.
  destruct (updateAttitudeComplimentary Quaternion2RPY diff_us st) as [r st'] eqn:Hu.
  assert (Hloop : forall next clock,
    AttitudeTask_loop Quaternion2RPY (diff_us :: next :: clock) st
    = AttitudeTask_loop Quaternion2RPY clock
        (AttitudeTask_turn Quaternion2RPY next
           (set_wdg_ATTITUDE (S (wdg_ATTITUDE st')) st'))).
  { intros next clock. cbn [AttitudeTask_loop].
    unfold AttitudeTask_turn at 2. now rewrite Hu. }
  unfold updateAttitudeComplimentary, xQueueReceive in Hu.
  destruct (gyroQueue st) as [|g gq] eqn:Hg.
  - injection Hu as <- <-. cbn. auto.
  - destruct Hq as [Hq|Hq]; [discriminate|].
    cbn [accelQueue set_gyroQueue] in Hu. rewrite Hq in Hu.
    injection Hu as <- <-. cbn. auto.
Qed.
End Timeout.

Lemma queue_timeout_keeps_attitude_witness :
  gyroQueue Scenario.starved = [] /\
  fst (updateAttitudeComplimentary Scenario.no_rpy 2000 Scenario.starved) = (-1)%Z /\
  alarm_ATTITUDE (snd (updateAttitudeComplimentary Scenario.no_rpy 2000 Scenario.starved))
  = SYSTEMALARMS_ALARM_ERROR.
Proof.
  split; [reflexivity|].
  pose proof (queue_timeout_keeps_attitude Scenario.no_rpy 2000 Scenario.starved
                (or_introl eq_refl)) as H.
  destruct (updateAttitudeComplimentary Scenario.no_rpy 2000 Scenario.starved)
    as [r st'].
  destruct H as (Hr & Halarm & _). split; assumption.
Defined.

Section ZeroAccel.
Import Binary32 Binary32Facts.
Local Open Scope float_scope.
Variable Quaternion2RPY : quat Binary32.t -> vec3 Binary32.t.
Implicit Types st : state Binary32.t.

Lemma accel_mag_zero a : all_zero a -> is_zero (accel_mag_of a) = true.
Proof.
  intros (Hx & Hy & Hz). unfold accel_mag_of.
  apply sqrt_zero. repeat apply add_zeros; now apply mul_zeros.
Qed.

Lemma accel_err_nan q a :
  all_zero a -> accel_err_of q a = (S754_nan, S754_nan, S754_nan).
Proof.
  intros Ha. pose proof (accel_mag_zero a Ha) as Hmag.
  destruct Ha as (Hx & Hy & Hz).
  unfold accel_err_of, CrossProduct.
  destruct (grot_of q) as [[g0 g1] g2].
  cbn [fdiv fsub fmul binary32].
  rewrite !div_by_zero; auto;
    apply sub_zero_or_nan; (now apply mul_zero_l) || (now apply mul_zero_r).
Qed.

Lemma corrected_rates_nan tu dT g :
  corrected_rates tu (S754_nan, S754_nan, S754_nan) dT g
  = (S754_nan, S754_nan, S754_nan).
Proof.
  unfold corrected_rates. cbn [fdiv fmul fadd binary32].
  cbn [mul div SFmul SFdiv]. now rewrite !add_nan_r.
Qed.

(** With a NaN rate on every axis the quaternion is reinitialised. *)
Lemma nan_rates_reset q dT :
  renormalize (hemisphere (time_step q
    (qdot_of q (S754_nan, S754_nan, S754_nan) dT)))
  = (of_int 1, of_int 0, of_int 0, of_int 0).
Proof.
  destruct q as [[[q0 q1] q2] q3]. unfold qdot_of, time_step.
  cbn [fdiv fsub fmul fadd fneg binary32].
  rewrite !mul_nan_r. cbn [sub mul div add SFsub SFmul SFdiv].
  rewrite !add_nan_r. reflexivity.
Qed.

(** C1, as the code has it.  For an accelerometer sample with all three
    axes zero: [accel_mag] is zero and the error is divided by it all the
    same, which gives NaN on every axis; the x and y biases take the NaN,
    and the quaternion sent is the identity, by the reinitialisation. *)
Theorem zero_accel_is_divided_by diff_us st g gq a aq :
  gyroQueue st = g :: gq ->
  accelQueue st = a :: aq ->
  all_zero a ->
  exists st',
    updateAttitudeComplimentary Quaternion2RPY diff_us st = (0%Z, st') /\
    is_zero (accel_mag_of a) = true /\
    accel_err_of (quat_of (AttitudeActual st)) a = (S754_nan, S754_nan, S754_nan) /\
    (let '(_, _, b2) := gyro_bias (tun st) in
     gyro_bias (tun st') = (S754_nan, S754_nan, b2)) /\
    quat_of (AttitudeActual st') = (of_int 1, of_int 0, of_int 0, of_int 0).
Proof.
  intros Hg Ha Hzero.
  destruct (update_with_samples Quaternion2RPY diff_us st g gq a aq Hg Ha)
    as (st' & Hret & Htun & Hq & _).
  exists st'. split; [exact Hret|].
  split; [now apply accel_mag_zero|].
  split; [now apply accel_err_nan|].
  unfold integrate in Htun, Hq. cbn [fst snd] in Htun, Hq.
  rewrite accel_err_nan in Htun, Hq by assumption.
  rewrite corrected_rates_nan, nan_rates_reset in Hq.
  split; [|exact Hq].
  rewrite Htun. unfold integrate_bias.
  destruct (gyro_bias (tun st)) as [[b0 b1] b2]. cbn.
  now rewrite !add_nan_r.
Qed.
End ZeroAccel.

Lemma zero_accel_is_divided_by_witness :
  accelQueue Scenario.freefall = [Scenario.weightless] /\
  all_zero Scenario.weightless /\
  exists st',
    updateAttitudeComplimentary Scenario.no_rpy 2000 Scenario.freefall = (0%Z, st') /\
    quat_of (AttitudeActual st') = (of_int 1, of_int 0, of_int 0, of_int 0).
Proof.
  assert (Ha : accelQueue Scenario.freefall = [Scenario.weightless])
    by (vm_compute; reflexivity).
  assert (Hz : all_zero Scenario.weightless) by (repeat split).
  split; [exact Ha|]. split; [exact Hz|].
  edestruct (zero_accel_is_divided_by Scenario.no_rpy 2000 Scenario.freefall)
    as (st' & Hret & _ & _ & _ & Hq);
    [vm_compute; reflexivity | exact Ha | exact Hz |].
  exists st'. split; assumption.
Defined.

(** C1, as stated, fails: for the craft in free fall, whose accelerometer
    reads zero on its three axes, the divisor is zero, the division is
    made, and the x and y biases are no longer what they were. *)
Lemma free_fall_poisons_bias :
  accelQueue Scenario.freefall = [Scenario.weightless] /\
  accel_mag_of Scenario.weightless = S754_zero false /\
  gyro_bias (tun Scenario.freefall) = (of_int 0, of_int 0, of_int 0) /\
  exists st',
    updateAttitudeComplimentary Scenario.no_rpy 2000 Scenario.freefall = (0%Z, st') /\
    gyro_bias (tun st') = (S754_nan, S754_nan, of_int 0).
Proof.
  split; [vm_compute; reflexivity|].
  split; [reflexivity|]. split; [vm_compute; reflexivity|].
  eexists. split; [vm_compute; reflexivity|]. reflexivity.
Qed.

(** ** The formulas of the filter *)

Section SingleFilter.
Import Binary32 Binary32Facts.
Local Open Scope float_scope.

(** In single precision the gravity vector of the code is, bit for bit,
    [-2 (q1 q3 - q0 q2)], [-2 (q2 q3 + q0 q1)] and the negated sum. *)
Lemma grot_single (q : quat Binary32.t) :
  let '(q0, q1, q2, q3) := q in
  grot_of q
  = (of_int (-2) * (q1 * q3 - q0 * q2),
     of_int (-2) * (q2 * q3 + q0 * q1),
     - (q0 * q0 - q1 * q1 - q2 * q2 + q3 * q3)).
Proof.
  destruct q as [[[q0 q1] q2] q3]. unfold grot_of.
  cbn [fneg fmul fsub fadd of_int binary32].
  change (of_Z (-2)) with (SFopp (of_Z 2)).
  now rewrite !mul_opp_l.
Qed.
End SingleFilter.

Section FilterStep.
Import Binary32 Binary32Facts.
Local Open Scope float_scope.
Variable Quaternion2RPY : quat Binary32.t -> vec3 Binary32.t.
Implicit Types st : state Binary32.t.

(** The product of two floats does not depend on their order. *)
Lemma mul_comm x y : mul x y = mul y x.
Proof.
  destruct x as [sx|sx| |sx mx ex], y as [sy|sy| |sy my ey]; cbn;
    rewrite ?(xorb_comm sy sx), ?(Pos.mul_comm my mx), ?(Z.add_comm ey ex);
    reflexivity.
Qed.

(** The error of the code is the cross product of the specification
    with its gravity vector, over the length of the sample. *)
Lemma accel_err_single (q : quat Binary32.t) (a : AccelsData Binary32.t) :
  accel_err_of q a = spec_err (Accels_x a, Accels_y a, Accels_z a) (spec_grot q).
Proof.
  pose proof (grot_single q) as Hg. unfold accel_err_of, spec_err, accel_mag_of.
  destruct q as [[[q0 q1] q2] q3]. rewrite Hg. unfold spec_grot, CrossProduct.
  cbn [fmul fsub binary32].
  rewrite (mul_comm (mul (of_int (-2)) (mul q2 q3 + mul q0 q1)) (Accels_z a)).
  rewrite (mul_comm (mul (of_int (-2)) (sub (mul q1 q3) (mul q0 q2))) (Accels_z a)).
  rewrite (mul_comm (mul (of_int (-2)) (sub (mul q1 q3) (mul q0 q2))) (Accels_y a)).
  reflexivity.
Qed.

(** C4.  In single precision, for a step that finds a sample on each
    queue.  The gravity vector the step computes is the one of the
    specification; the error is its cross product with the accelerometer
    sample over the length of the sample; the rates are the gyro sample
    plus the error times [accelKp / dT], [dT] being the microseconds over
    1e6; [qdot] is the skew products of the quaternion with those rates
    times [dT] and the constant of the code for pi, over 180 and over 2;
    the quaternion stored is [q + qdot], brought to the upper hemisphere
    and renormalised, and the first two components of the gyro bias have
    moved by that error times [accelKi]. *)
Theorem filter_step_formulas diff_us st g gq a aq :
  gyroQueue st = g :: gq ->
  accelQueue st = a :: aq ->
  let q := quat_of (AttitudeActual st) in
  let dT := of_int diff_us / of_lit 1000000 in
  let g_b := spec_grot q in
  let err := spec_err (Accels_x a, Accels_y a, Accels_z a) g_b in
  let w := spec_rates (Gyros_x g, Gyros_y g, Gyros_z g) err (accelKp (tun st)) dT in
  let qdot := spec_qdot F_PI q w dT in
  grot_of q = g_b /\
  exists st',
    updateAttitudeComplimentary Quaternion2RPY diff_us st = (0%Z, st') /\
    quat_of (AttitudeActual st') = renormalize (hemisphere (quat_plus q qdot)) /\
    let '(e0, e1, _) := err in
    let '(b0, b1, b2) := gyro_bias (tun st) in
    gyro_bias (tun st')
    = (b0 + e0 * accelKi (tun st), b1 + e1 * accelKi (tun st), b2).
Proof.
  intros Hg Ha q dT g_b err w qdot.
  assert (Hgrot : grot_of q = g_b).
  { pose proof (grot_single q) as H. unfold g_b, spec_grot.
    now destruct q as [[[q0 q1] q2] q3]. }
  split; [exact Hgrot|].
  destruct (update_with_samples Quaternion2RPY diff_us st g gq a aq Hg Ha)
    as (st' & Hret & Htun & Hq & _).
  exists st'. split; [exact Hret|].
  fold q dT in Hq, Htun. unfold integrate in Hq, Htun. cbn [fst snd] in Hq, Htun.
  rewrite accel_err_single in Hq, Htun. fold g_b err in Hq, Htun.
  split.
  - rewrite Hq. f_equal. f_equal. unfold qdot, w.
    unfold corrected_rates, integrate_bias, spec_rates.
    destruct err as [[e0 e1] e2].
    destruct (gyro_bias (tun st)) as [[b0 b1] b2].
    cbn [accelKp tun_set_gyro_bias].
    destruct q as [[[q0 q1] q2] q3]. reflexivity.
  - rewrite Htun. unfold integrate_bias. destruct err as [[e0 e1] e2].
    now destruct (gyro_bias (tun st)) as [[b0 b1] b2].
Qed.
End FilterStep.

Lemma filter_step_formulas_witness :
  exists st',
    updateAttitudeComplimentary Scenario.no_rpy 2000 Case.rolling = (0%Z, st') /\
    quat_of (AttitudeActual st')
    = (S754_finite false 16777196 (-24), S754_finite false 13493023 (-33),
       S754_zero false, S754_zero false).
Proof.
  pose proof (filter_step_formulas Scenario.no_rpy 2000 Case.rolling
                _ [] _ [] eq_refl eq_refl) as H.
  cbv zeta in H. destruct H as (_ & st' & Hret & Hq & _).
  exists st'. split; [exact Hret|]. rewrite Hq. vm_compute. reflexivity.
Defined.

(** ** The quaternion sent *)

Section Published32.
Import Binary32 Binary32Facts.
Local Open Scope float_scope.

Lemma hemisphere_not_negative (q : quat Binary32.t) :
  let '(q0, _, _, _) := hemisphere q in not_negative q0 = true.
Proof.
  destruct q as [[[q0 q1] q2] q3]. unfold hemisphere.
  change (q0 <? of_int 0) with (ltb q0 (of_Z 0)). rewrite ltb_zero.
  now destruct q0 as [[|]|[|]| |[|] m e].
Qed.

(** In single precision the quaternion sent never has a negative first
    component. *)
Lemma renormalize_not_negative (q : quat Binary32.t) :
  let '(p0, _, _, _) := renormalize (hemisphere q) in
  (p0 <? of_int 0) = false.
Proof.
  pose proof (hemisphere_not_negative q) as Hh.
  destruct (hemisphere q) as [[[q0 q1] q2] q3]. unfold renormalize.
  set (qmag := qmag_of (q0, q1, q2, q3)).
  assert (Hmag : not_negative qmag = true) by apply sqrt_not_negative.
  destruct ((fabs qmag <? of_lit (1 # 1000)) || (qmag !=? qmag)) eqn:Hguard.
  - reflexivity.
  - change (ltb (div q0 qmag) (of_Z 0) = false). rewrite ltb_zero.
    rewrite div_not_negative; auto. now apply long_enough.
Qed.

(** Too short, or NaN: the identity is sent. *)
Lemma renormalize_reset (q : quat Binary32.t) :
  (fabs (qmag_of q) <? of_lit (1 # 1000)) = true \/ is_nan (qmag_of q) = true ->
  renormalize q = (of_int 1, of_int 0, of_int 0, of_int 0).
Proof.
  destruct q as [[[q0 q1] q2] q3]. unfold renormalize.
  set (qmag := qmag_of (q0, q1, q2, q3)). intros [H|H].
  - now rewrite H.
  - destruct qmag; try discriminate. reflexivity.
Qed.
End Published32.

Section Overflow.
Import Binary32 Binary32Facts.
Local Open Scope float_scope.

(** Over an infinite norm every component is a zero, or NaN. *)
Lemma div_by_infinity x s : zero_or_nan (div x (S754_infinity s)) = true.
Proof. now destruct x. Qed.

(** An infinite norm is neither short nor NaN: the quaternion is
    divided by it. *)
Lemma renormalize_infinite (q : quat Binary32.t) :
  qmag_of q = S754_infinity false ->
  let '(p0, p1, p2, p3) := renormalize q in
  zero_or_nan p0 = true /\ zero_or_nan p1 = true /\
  zero_or_nan p2 = true /\ zero_or_nan p3 = true.
Proof.
  destruct q as [[[q0 q1] q2] q3]. unfold renormalize.
  set (qmag := qmag_of (q0, q1, q2, q3)). intros ->.
  change ((fabs (S754_infinity false) <? of_lit (1 # 1000))
          || (S754_infinity false !=? S754_infinity false)) with false.
  cbv iota. repeat split; apply div_by_infinity.
Qed.

(** [x != x] holds of NaN alone. *)
Lemma neb_self x : neb x x = is_nan x.
Proof.
  destruct x as [s|s| |s m e]; try (now destruct s); [reflexivity|].
  unfold neb, SFeqb, SFcompare.
  destruct s; rewrite Z.compare_refl, Pos.compare_cont_refl; reflexivity.
Qed.

(** A norm that is neither short nor NaN: the quaternion is divided by
    it, component by component. *)
Lemma renormalize_divides (q : quat Binary32.t) :
  (fabs (qmag_of q) <? of_lit (1 # 1000)) = false ->
  is_nan (qmag_of q) = false ->
  let '(q0, q1, q2, q3) := q in
  renormalize q
  = (q0 / qmag_of q, q1 / qmag_of q, q2 / qmag_of q, q3 / qmag_of q).
Proof.
  destruct q as [[[q0 q1] q2] q3]. unfold renormalize.
  set (qmag := qmag_of (q0, q1, q2, q3)). intros Hlong Hnan.
  change (qmag !=? qmag) with (neb qmag qmag).
  now rewrite Hlong, neb_self, Hnan.
Qed.
End Overflow.

(** C5, on the code.  In single precision, for a step that finds its two
    samples: the first component of the quaternion stored is never below
    zero; the identity is stored when the norm before renormalisation is
    under 1e-3 or NaN, and otherwise the quaternion divided by that norm,
    component by component.  The test at line 447 misses the norm that has
    overflowed: when it is infinite the quaternion is divided by it all the
    same, and every component stored is a zero or NaN, so that the norm of
    what is published is not within 1e-4 of 1. *)
Theorem published_quaternion
    (Quaternion2RPY : quat Binary32.t -> vec3 Binary32.t) diff_us
    (st : state Binary32.t) g gq a aq :
  gyroQueue st = g :: gq ->
  accelQueue st = a :: aq ->
  let dT := fdiv (of_int diff_us) (of_lit 1000000) in
  let p := snd (integrate (tun st) (quat_of (AttitudeActual st)) g a dT) in
  let qmag := qmag_of p in
  exists st',
    updateAttitudeComplimentary Quaternion2RPY diff_us st = (0%Z, st') /\
    fltb (q1 (AttitudeActual st')) (of_int 0) = false /\
    (fltb (fabs qmag) (of_lit (1 # 1000)) = true \/ Binary32.is_nan qmag = true ->
     quat_of (AttitudeActual st') = (of_int 1, of_int 0, of_int 0, of_int 0)) /\
    (fltb (fabs qmag) (of_lit (1 # 1000)) = false -> Binary32.is_nan qmag = false ->
     let '(p0, p1, p2, p3) := p in
     quat_of (AttitudeActual st')
     = (fdiv p0 qmag, fdiv p1 qmag, fdiv p2 qmag, fdiv p3 qmag)) /\
    (qmag = S754_infinity false ->
     zero_or_nan (q1 (AttitudeActual st')) = true /\
     zero_or_nan (q2 (AttitudeActual st')) = true /\
     zero_or_nan (q3 (AttitudeActual st')) = true /\
     zero_or_nan (q4 (AttitudeActual st')) = true).
Proof.
  intros Hg Ha dT p qmag.
  destruct (update_with_samples Quaternion2RPY diff_us st g gq a aq Hg Ha)
    as (st' & Hret & _ & Hq & _).
  exists st'. split; [exact Hret|].
  fold dT in Hq. fold p in Hq. subst qmag.
  assert (Hp : exists p', p = hemisphere p')
    by (unfold p, integrate; cbn [snd]; eauto).
  destruct Hp as [p' Hp].
  pose proof (renormalize_not_negative p') as Hsign. rewrite <- Hp in Hsign.
  pose proof (renormalize_reset p) as Hr.
  pose proof (renormalize_divides p) as Hdiv.
  pose proof (renormalize_infinite p) as Hinf.
  clearbody p. clear Hp p'.
  split; [|split; [|split]].
  - unfold quat_of in Hq.
    destruct (renormalize p) as [[[r0 r1] r2] r3].
    injection Hq as -> _ _ _. exact Hsign.
  - intros Hdeg. rewrite Hq. exact (Hr Hdeg).
  - intros Hlong Hnan. specialize (Hdiv Hlong Hnan).
    destruct p as [[[p0 p1] p2] p3]. now rewrite Hq.
  - intros Hover. specialize (Hinf Hover). unfold quat_of in Hq.
    destruct (renormalize p) as [[[r0 r1] r2] r3].
    injection Hq as -> -> -> ->. exact Hinf.
Qed.

Lemma published_quaternion_witness :
  (exists st',
     updateAttitudeComplimentary Scenario.no_rpy 2000 Scenario.freefall = (0%Z, st') /\
     fltb (q1 (AttitudeActual st')) (of_int 0) = false) /\
  (exists st',
     updateAttitudeComplimentary Scenario.no_rpy 2000 Case.stiff = (0%Z, st') /\
     zero_or_nan (q1 (AttitudeActual st')) = true).
Proof.
  split.
  - destruct (published_quaternion Scenario.no_rpy 2000%Z Scenario.freefall _ [] _ []
                ltac:(vm_compute; reflexivity) ltac:(vm_compute; reflexivity))
      as (st' & Hret & Hsign & _).
    exists st'. split; assumption.
  - destruct (published_quaternion Scenario.no_rpy 2000%Z Case.stiff _ [] _ []
                ltac:(vm_compute; reflexivity) ltac:(vm_compute; reflexivity))
      as (st' & Hret & _ & _ & _ & Hinf).
    exists st'. split; [exact Hret|].
    apply Hinf. vm_compute. reflexivity.
Defined.

(** C5, at one input: with a gain of 1e30 in the settings the squares
    overflow, the norm is infinite, which is neither short nor NaN, and
    the zero quaternion is sent. *)
Lemma overflow_publishes_zero :
  exists st',
    Scenario.stiff_publish = Some (0%Z, st') /\
    quat_of (AttitudeActual st')
    = (S754_zero false, S754_zero false, S754_zero false, S754_zero false).
Proof.
  eexists. split; [vm_compute; reflexivity|]. reflexivity.
Qed.

(** * Further properties *)


(** ** The queues *)

Section QueueFacts.
Context {F : Type} {FA : FloatArith F}.
Variable Quaternion2RPY : quat F -> vec3 F.
Implicit Types st : state F.

Lemma send_accels_length a st :
  (length (accelQueue st) <= SENSOR_QUEUE_SIZE)%nat ->
  (length (accelQueue (send_accels a st)) <= SENSOR_QUEUE_SIZE)%nat.
Proof.
  intros Hlen. destruct (send_accels_queue a st) as (Hroom & Hfull & _).
  destruct (Nat.lt_ge_cases (length (accelQueue st)) SENSOR_QUEUE_SIZE) as [H|H].
  - rewrite (Hroom H), length_app. cbn [length]. lia.
  - now rewrite (Hfull H).
Qed.

Lemma send_gyros_length g st :
  (length (gyroQueue st) <= SENSOR_QUEUE_SIZE)%nat ->
  (length (gyroQueue (send_gyros g st)) <= SENSOR_QUEUE_SIZE)%nat.
Proof.
  intros Hlen. destruct (send_gyros_queue g st) as (Hroom & Hfull & _).
  destruct (Nat.lt_ge_cases (length (gyroQueue st)) SENSOR_QUEUE_SIZE) as [H|H].
  - rewrite (Hroom H), length_app. cbn [length]. lia.
  - now rewrite (Hfull H).
Qed.

(** The accelerometer half, read off its definition. *)
Lemma update_accels_inv st st1 :
  update_accels st = Some st1 ->
  exists accel count accum fifo,
    read_fifo bma_axes (bma180_fifo st) = Some (accel, count, accum, fifo) /\
    let a := accels_of (tun st) (bma180_scale st)
               (averages accum (MachInt.uint32 count)) (bma_temperature accel) in
    st1 = send_accels a (set_Accels a (set_bma180_fifo fifo st)).
Proof.
  unfold update_accels. intros H.
  destruct (read_fifo bma_axes (bma180_fifo st)) as [[[[accel count] accum] fifo]|];
    [|discriminate].
  injection H as <-. now exists accel, count, accum, fifo.
Qed.

(** The gyro half, read off its definition. *)
Lemma update_gyros_inv st st2 :
  update_gyros st = Some st2 ->
  exists gyro count accum fifo,
    read_fifo mpu_axes (mpu6000_fifo st) = Some (gyro, count, accum, fifo) /\
    let g := gyros_of (mpu6000_scale st) (averages accum (MachInt.uint32 count))
               (mpu_temperature gyro) in
    let st1 := send_gyros g (set_mpu6000_fifo fifo st) in
    let out := bias_corrected (tun st1) g in
    st2 = set_tun (yaw_bias_leak (Gyros_z out) (tun st1)) (set_Gyros out st1).
Proof.
  unfold update_gyros. intros H.
  destruct (read_fifo mpu_axes (mpu6000_fifo st)) as [[[[gyro count] accum] fifo]|];
    [|discriminate].
  injection H as <-. now exists gyro, count, accum, fifo.
Qed.

Lemma update_gyros_frame st st2 :
  update_gyros st = Some st2 ->
  accelQueue st2 = accelQueue st /\ Accels st2 = Accels st /\
  AttitudeActual st2 = AttitudeActual st /\ hmc5883 st2 = hmc5883 st /\
  Magnetometer st2 = Magnetometer st /\ bma180_fifo st2 = bma180_fifo st.
Proof.
  intros H. apply update_gyros_inv in H
    as (gyro & count & accum & fifo & _ & ->).
  cbv zeta. unfold send_gyros, xQueueSendToBack.
  change (gyroQueue (set_mpu6000_fifo fifo st)) with (gyroQueue st).
  destruct (length (gyroQueue st) <? SENSOR_QUEUE_SIZE)%nat; cbn; auto 10.
Qed.

Lemma update_accels_frame2 st st1 :
  update_accels st = Some st1 ->
  AttitudeActual st1 = AttitudeActual st /\ hmc5883 st1 = hmc5883 st /\
  Magnetometer st1 = Magnetometer st /\ Gyros st1 = Gyros st.
Proof.
  intros H. apply update_accels_inv in H
    as (accel & count & accum & fifo & _ & ->).
  cbv zeta. unfold send_accels, xQueueSendToBack.
  match goal with |- context [(length ?q <? _)%nat] =>
    destruct (length q <? SENSOR_QUEUE_SIZE)%nat end; cbn; auto 10.
Qed.

Lemma update_accels_length st st1 :
  update_accels st = Some st1 ->
  (length (accelQueue st) <= SENSOR_QUEUE_SIZE)%nat ->
  (length (accelQueue st1) <= SENSOR_QUEUE_SIZE)%nat.
Proof.
  intros H Hlen. apply update_accels_inv in H
    as (accel & count & accum & fifo & _ & ->).
  cbv zeta. now apply send_accels_length.
Qed.

Lemma update_gyros_length st st2 :
  update_gyros st = Some st2 ->
  (length (gyroQueue st) <= SENSOR_QUEUE_SIZE)%nat ->
  (length (gyroQueue st2) <= SENSOR_QUEUE_SIZE)%nat.
Proof.
  intros H Hlen. apply update_gyros_inv in H
    as (gyro & count & accum & fifo & _ & ->).
  cbv zeta. cbn [gyroQueue set_tun set_Gyros]. now apply send_gyros_length.
Qed.

(** A step of the estimator takes at most one sample off each queue. *)
Lemma update_queues_shrink diff_us st :
  let st' := snd (updateAttitudeComplimentary Quaternion2RPY diff_us st) in
  (length (gyroQueue st') <= length (gyroQueue st))%nat /\
  (length (accelQueue st') <= length (accelQueue st))%nat.
Proof.
  unfold updateAttitudeComplimentary, xQueueReceive.
  destruct (gyroQueue st) as [|g gq] eqn:Hg.
  - cbn. rewrite Hg. cbn. lia.
  - cbn [accelQueue set_gyroQueue].
    destruct (accelQueue st) as [|a aq] eqn:Ha.
    + cbn. rewrite Ha. cbn. lia.
    + destruct (integrate _ _ _ _ _) as [tu q]. cbn. lia.
Qed.

(** X1.  The capacity of the queues is an invariant: a tick, a turn of the
    sensor task and a step of the estimator keep both queues within
    [SENSOR_QUEUE_SIZE], also when a tick stops on an empty FIFO. *)
Theorem queues_stay_bounded st :
  queues_bounded st ->
  (match updateSensors st with
   | Ret _ st' | Hang st' => queues_bounded st'
   end) /\
  (forall t1 t2 init,
     match SensorTask_turn t1 t2 init st with
     | Ret _ st' | Hang st' => queues_bounded st'
     end) /\
  (forall diff_us,
     queues_bounded (snd (updateAttitudeComplimentary Quaternion2RPY diff_us st))).
Proof.
  assert (Hsens : forall s, queues_bounded s ->
            match updateSensors s with
            | Ret _ s' | Hang s' => queues_bounded s'
            end).
  { intros s [Hg Ha]. unfold updateSensors.
    destruct (update_accels s) as [s1|] eqn:H1; [|now split].
    pose proof (update_accels_length s s1 H1 Ha) as Ha1.
    destruct (update_accels_frame s s1 H1) as (_ & Hq & _).
    destruct (update_gyros s1) as [s2|] eqn:H2.
    - pose proof (update_gyros_length s1 s2 H2) as Hg2.
      destruct (update_gyros_frame s1 s2 H2) as (Haq & _).
      destruct (read_mag_frame s2) as (_ & Hgq & Haq2 & _).
      split; [rewrite Hgq; apply Hg2; now rewrite Hq|].
      now rewrite Haq2, Haq.
    - split; [now rewrite Hq|exact Ha1]. }
  intros Hb. split; [now apply Hsens|]. split.
  - intros t1 t2 init. unfold SensorTask_turn.
    destruct (select_gains t1 t2 init st) as [init1 st1] eqn:Hsel.
    destruct (select_gains_frame t1 t2 init st) as (_ & _ & Hg & Ha & _).
    rewrite Hsel in Hg, Ha. cbn [snd] in Hg, Ha.
    assert (Hb1 : queues_bounded st1).
    { destruct Hb. split; [now rewrite Hg|now rewrite Ha]. }
    specialize (Hsens st1 Hb1).
    destruct (updateSensors st1) as [r st2|st2]; [|exact Hsens].
    destruct Hsens as [H1 H2]. destruct (r =? 0)%Z; split; assumption.
  - intros diff_us. destruct Hb as [Hg Ha].
    destruct (update_queues_shrink diff_us st) as [Hg' Ha'].
    split; lia.
Qed.
End QueueFacts.

Section QueueOverflow.
Context {F : Type} {FA : FloatArith F}.
Implicit Types st : state F.

(** What a completed tick does to the two queues and to the alarm, by
    the room there was; [g] is the gyro sample it has built. *)
Lemma updateSensors_queues st r st' :
  updateSensors st = Ret r st' ->
  accelQueue st'
  = (if has_room (accelQueue st) then accelQueue st ++ [Accels st']
     else accelQueue st) /\
  (exists g,
     gyroQueue st'
     = (if has_room (gyroQueue st) then gyroQueue st ++ [g] else gyroQueue st) /\
     Gyros st' = bias_corrected (tun st) g) /\
  alarm_ATTITUDE st'
  = (if has_room (accelQueue st) && has_room (gyroQueue st) then alarm_ATTITUDE st
     else SYSTEMALARMS_ALARM_WARNING) /\
  AttitudeActual st' = AttitudeActual st.
Proof.
  intros H. apply updateSensors_Ret in H as (_ & st1 & st2 & Ha & Hg & ->).
  pose proof (update_accels_frame st st1 Ha) as (Htun & Hgq & _).
  pose proof (update_accels_frame2 st st1 Ha) as (Hatt1 & _).
  pose proof (update_gyros_frame st1 st2 Hg) as (_ & _ & Hatt2 & _).
  apply update_accels_inv in Ha as (accel & count & accum & fifo & _ & Hst1).
  apply update_gyros_inv in Hg as (gyro & count' & accum' & fifo' & _ & Hst2).
  cbv zeta in Hst1, Hst2.
  assert (Hatt : AttitudeActual (read_mag st2) = AttitudeActual st).
  { rewrite <- Hatt1, <- Hatt2. unfold read_mag.
    now destruct (hmc5883 st2) as [|[[[v0 v1] v2]|] later]. }
  destruct (read_mag_frame st2) as (_ & -> & -> & -> & -> & ->).
  clear Hatt1 Hatt2.
  assert (Hacc : accelQueue st1
            = (if has_room (accelQueue st) then accelQueue st ++ [Accels st1]
               else accelQueue st) /\
          alarm_ATTITUDE st1
            = (if has_room (accelQueue st) then alarm_ATTITUDE st
               else SYSTEMALARMS_ALARM_WARNING)).
  { rewrite Hst1. unfold send_accels, xQueueSendToBack.
    change (accelQueue (set_Accels _ (set_bma180_fifo fifo st))) with (accelQueue st).
    fold (has_room (accelQueue st)).
    destruct (has_room (accelQueue st)); cbn; auto. }
  destruct Hacc as [Haq Hal].
  set (g := gyros_of (mpu6000_scale st1) (averages accum' (MachInt.uint32 count'))
              (mpu_temperature gyro)) in *.
  assert (Hsend : tun (send_gyros g (set_mpu6000_fifo fifo' st1)) = tun st)
    by (destruct (send_gyros_fifo g fifo' st1) as (_ & ->); exact Htun).
  revert Hatt. rewrite Hst2.
  cbn [accelQueue gyroQueue Accels Gyros alarm_ATTITUDE set_tun set_Gyros].
  rewrite Hsend. unfold send_gyros, xQueueSendToBack.
  change (gyroQueue (set_mpu6000_fifo fifo' st1)) with (gyroQueue st1).
  rewrite Hgq. fold (has_room (gyroQueue st)).
  destruct (has_room (gyroQueue st)); cbn [accelQueue gyroQueue Accels alarm_ATTITUDE
    set_gyroQueue set_mpu6000_fifo AlarmsSet set_alarm_ATTITUDE];
    rewrite ?andb_true_r, ?andb_false_r; intros Hatt;
    (split; [exact Haq|split; [now exists g|split; [auto|exact Hatt]]]).
Qed.

(** X2.  A tick that finds a queue full drops the sample: the full queue
    is as before, the accelerometer object is set all the same, and the
    tick ends with the ATTITUDE alarm at WARNING. *)
Theorem full_queue_drops_sample st r st' :
  (SENSOR_QUEUE_SIZE <= length (accelQueue st))%nat \/
  (SENSOR_QUEUE_SIZE <= length (gyroQueue st))%nat ->
  updateSensors st = Ret r st' ->
  alarm_ATTITUDE st' = SYSTEMALARMS_ALARM_WARNING /\
  ((SENSOR_QUEUE_SIZE <= length (accelQueue st))%nat ->
   accelQueue st' = accelQueue st) /\
  ((SENSOR_QUEUE_SIZE <= length (gyroQueue st))%nat ->
   gyroQueue st' = gyroQueue st) /\
  exists accel count accum fifo,
    read_fifo bma_axes (bma180_fifo st) = Some (accel, count, accum, fifo) /\
    Accels st' = accels_of (tun st) (bma180_scale st)
                   (averages accum (MachInt.uint32 count)) (bma_temperature accel).
Proof.
  intros Hfull H.
  destruct (updateSensors_queues st r st' H) as (Ha & (g & Hg & _) & Hal & _).
  assert (Hroom : forall T (q : list T),
            (SENSOR_QUEUE_SIZE <= length q)%nat -> has_room q = false)
    by (intros; now apply Nat.ltb_ge).
  split; [|split; [|split]].
  - rewrite Hal. destruct Hfull as [Hf|Hf]; rewrite (Hroom _ _ Hf);
      now rewrite ?andb_false_r.
  - intros Hf. now rewrite Ha, (Hroom _ _ Hf).
  - intros Hf. now rewrite Hg, (Hroom _ _ Hf).
  - apply updateSensors_Ret in H as (_ & st1 & st2 & Hacc & Hgy & ->).
    pose proof (updateSensors_Accels st st1 Hacc) as HA.
    unfold updateSensors in HA. rewrite Hacc, Hgy in HA. rewrite HA.
    unfold update_accels in Hacc.
    destruct (read_fifo bma_axes (bma180_fifo st))
      as [[[[accel count] accum] fifo]|] eqn:Hread; [|discriminate].
    destruct (update_accels_spec st accel count accum fifo Hread)
      as (st1' & Hacc' & Hval).
    unfold update_accels in Hacc'. rewrite Hread in Hacc'.
    rewrite Hacc in Hacc'. injection Hacc' as <-.
    now exists accel, count, accum, fifo.
Qed.

(** X3.  A tick that finds room in both queues appends one sample to
    each, the accelerometer sample queued being the accelerometer object
    it has set, and leaves the ATTITUDE alarm as it was. *)
Theorem room_in_queues_appends st r st' :
  (length (accelQueue st) < SENSOR_QUEUE_SIZE)%nat ->
  (length (gyroQueue st) < SENSOR_QUEUE_SIZE)%nat ->
  updateSensors st = Ret r st' ->
  accelQueue st' = accelQueue st ++ [Accels st'] /\
  (exists g, gyroQueue st' = gyroQueue st ++ [g]) /\
  alarm_ATTITUDE st' = alarm_ATTITUDE st.
Proof.
  intros Ha Hg H.
  destruct (updateSensors_queues st r st' H) as (Haq & (g & Hgq & _) & Hal & _).
  apply Nat.ltb_lt in Ha, Hg. unfold has_room in *. rewrite Ha in Haq, Hal. rewrite Hg in Hgq, Hal.
  split; [exact Haq|]. split; [now exists g|exact Hal].
Qed.

(** A turn that completes clears the alarm and strokes the watchdog. *)
Lemma sensor_turn_clears_alarm_aux t1 t2 init st init' st' :
  SensorTask_turn t1 t2 init st = Ret init' st' ->
  alarm_ATTITUDE st' = SYSTEMALARMS_ALARM_OK /\
  wdg_SENSORS st' = S (wdg_SENSORS st).
Proof.
  unfold SensorTask_turn.
  destruct (select_gains t1 t2 init st) as [i1 st1] eqn:Hsel.
  assert (Hw : wdg_SENSORS st1 = wdg_SENSORS st).
  { unfold select_gains in Hsel.
    destruct ((t1 <? 7000)%Z && (t2 >? 1000)%Z);
      [|destruct (zero_during_arming (tun st) && is_arming (FlightStatus st));
        [|destruct (init =? 0)%Z]]; injection Hsel as <- <-; reflexivity. }
  destruct (updateSensors st1) as [r st2|st2] eqn:Hu; [|discriminate].
  intros H. injection H as <- <-.
  pose proof (updateSensors_Ret st1 r st2 Hu) as (-> & s1 & s2 & Ha & Hg & Hst2).
  cbn [Z.eqb AlarmsClear set_alarm_ATTITUDE set_wdg_SENSORS alarm_ATTITUDE
       wdg_SENSORS accelQueue].
  split; [reflexivity|].
  f_equal. rewrite <- Hw. subst st2.
  apply update_accels_inv in Ha as (? & ? & ? & ? & _ & ->).
  apply update_gyros_inv in Hg as (? & ? & ? & ? & _ & ->). cbv zeta.
  unfold read_mag, send_gyros, send_accels, xQueueSendToBack.
  cbn -[Nat.ltb averages accels_of gyros_of bias_corrected yaw_bias_leak].
  repeat match goal with |- context [(length ?q <? ?n)%nat] =>
    destruct (length q <? n)%nat end;
  cbn -[averages accels_of gyros_of bias_corrected yaw_bias_leak];
  match goal with |- context [hmc5883 ?s] =>
    destruct (hmc5883 s) as [|[[[v0 v1] v2]|] later] end; reflexivity.
Qed.

(** X4.  A turn of the sensor task that completes ends with the ATTITUDE
    alarm cleared and the watchdog flag stroked once, whatever the room in
    the queues: the queue-full warning of the tick does not outlive the
    turn, though the sample is dropped, and the ERROR of the turn is never
    raised. *)
Theorem sensor_turn_clears_alarm t1 t2 init st init' st' :
  SensorTask_turn t1 t2 init st = Ret init' st' ->
  alarm_ATTITUDE st' = SYSTEMALARMS_ALARM_OK /\
  wdg_SENSORS st' = S (wdg_SENSORS st) /\
  (has_room (accelQueue st) = false -> accelQueue st' = accelQueue st) /\
  (has_room (gyroQueue st) = false -> gyroQueue st' = gyroQueue st).
Proof.
  intros H. destruct (sensor_turn_clears_alarm_aux _ _ _ _ _ _ H) as [Hal Hw].
  split; [exact Hal|]. split; [exact Hw|].
  revert H. unfold SensorTask_turn.
  destruct (select_gains t1 t2 init st) as [i1 st1] eqn:Hsel.
  pose proof (select_gains_frame t1 t2 init st) as Hf.
  rewrite Hsel in Hf. cbn [snd] in Hf. destruct Hf as (_ & _ & Hgq & Haq & _).
  destruct (updateSensors st1) as [r st2|st2] eqn:Hu; [|discriminate].
  intros H. injection H as <- <-.
  destruct (updateSensors_queues st1 r st2 Hu) as (Ha & (g & Hg & _) & _).
  rewrite Haq in Ha. rewrite Hgq in Hg.
  split; intros Hfull; rewrite Hfull in *;
    destruct (r =? 0)%Z; cbn; congruence.
Qed.
End QueueOverflow.

(** ** The two writers of the gyro bias *)

Section BiasWriters.
Context {F : Type} {FA : FloatArith F}.
Variable Quaternion2RPY : quat F -> vec3 F.
Implicit Types st : state F.
Local Open Scope float_scope.

Lemma tun_set_gyro_bias_same (tu : tuning F) :
  tun_set_gyro_bias (gyro_bias tu) tu = tu.
Proof. now destruct tu. Qed.

(** A completed tick writes the third component of the bias and no other
    tuning variable; what it adds is the published yaw rate times
    [- yawBiasRate]. *)
Lemma updateSensors_tun st r st' :
  updateSensors st = Ret r st' ->
  let '(b0, b1, b2) := gyro_bias (tun st) in
  tun st'
  = tun_set_gyro_bias (b0, b1, b2 + (- Gyros_z (Gyros st')) * yawBiasRate (tun st))
      (tun st).
Proof.
  intros H. apply updateSensors_Ret in H as (_ & st1 & st2 & Ha & Hg & ->).
  apply update_accels_frame in Ha as (Htun & _).
  apply update_gyros_spec in Hg
    as (gyro & count & accum & fifo & _ & _ & HG & Hleak).
  destruct (read_mag_frame st2) as (-> & _ & _ & -> & _).
  rewrite Hleak, HG, Htun. unfold yaw_bias_leak.
  now destruct (gyro_bias (tun st)) as [[b0 b1] b2].
Qed.

(** A step of the estimator writes the first two components of the bias
    and no other tuning variable. *)
Lemma update_tun diff_us st :
  let '(b0, b1, b2) := gyro_bias (tun st) in
  exists bx by_,
    tun (snd (updateAttitudeComplimentary Quaternion2RPY diff_us st))
    = tun_set_gyro_bias (bx, by_, b2) (tun st).
Proof.
  destruct (gyro_bias (tun st)) as [[b0 b1] b2] eqn:Hb.
  unfold updateAttitudeComplimentary, xQueueReceive.
  destruct (gyroQueue st) as [|g gq].
  { exists b0, b1. cbn. now rewrite <- Hb, tun_set_gyro_bias_same. }
  cbn [accelQueue set_gyroQueue].
  destruct (accelQueue st) as [|a aq].
  { exists b0, b1. cbn. now rewrite <- Hb, tun_set_gyro_bias_same. }
  unfold integrate, integrate_bias. cbn [tun set_accelQueue set_gyroQueue].
  destruct (accel_err_of _ a) as [[e0 e1] e2]. rewrite Hb.
  eexists _, _. reflexivity.
Qed.

(** X5.  The two tasks write different components of the gyro bias: a
    completed tick changes the third component only, and the estimator
    loop, however long it runs, the first two only; neither changes a gain
    or any other tuning variable. *)
Theorem bias_writers_are_disjoint st :
  let '(b0, b1, b2) := gyro_bias (tun st) in
  (forall r st', updateSensors st = Ret r st' ->
     exists bz, tun st' = tun_set_gyro_bias (b0, b1, bz) (tun st)) /\
  (forall clock, exists bx by_,
     tun (AttitudeTask_loop Quaternion2RPY clock st)
     = tun_set_gyro_bias (bx, by_, b2) (tun st)).
Proof.
  destruct (gyro_bias (tun st)) as [[b0 b1] b2] eqn:Hb. split.
  - intros r st' H. pose proof (updateSensors_tun st r st' H) as Ht.
    rewrite Hb in Ht. eauto.
  - intros clock. revert st b0 b1 Hb.
    induction clock as [|d clock IH]; intros st b0 b1 Hb.
    + exists b0, b1. cbn. now rewrite <- Hb, tun_set_gyro_bias_same.
    + cbn [AttitudeTask_loop]. unfold AttitudeTask_turn.
      pose proof (update_tun d st) as Hstep. rewrite Hb in Hstep.
      destruct Hstep as (bx & by_ & Hstep).
      destruct (updateAttitudeComplimentary Quaternion2RPY d st) as [r st1].
      cbn [snd] in Hstep.
      destruct (IH (set_wdg_ATTITUDE (S (wdg_ATTITUDE st1)) st1) bx by_)
        as (bx' & by' & Hloop).
      { cbn [tun set_wdg_ATTITUDE]. now rewrite Hstep. }
      exists bx', by'. rewrite Hloop. cbn [tun set_wdg_ATTITUDE].
      now rewrite Hstep.
Qed.

(** X6.  The integral path never reaches the attitude: a step of the
    estimator returns the same value, stores the same attitude and leaves
    the same queues and alarm whatever [accelKi] and the gyro bias are. *)
Theorem attitude_ignores_integral_path ki b diff_us st :
  let '(r, st') := updateAttitudeComplimentary Quaternion2RPY diff_us st in
  let '(r_, st_) :=
    updateAttitudeComplimentary Quaternion2RPY diff_us (with_integral ki b st) in
  r_ = r /\ AttitudeActual st_ = AttitudeActual st' /\
  gyroQueue st_ = gyroQueue st' /\ accelQueue st_ = accelQueue st' /\
  alarm_ATTITUDE st_ = alarm_ATTITUDE st' /\
  accelKp (tun st_) = accelKp (tun st').
Proof.
  unfold updateAttitudeComplimentary, with_integral, xQueueReceive.
  cbn [gyroQueue set_tun].
  destruct (gyroQueue st) as [|g gq]; [cbn; auto 10|].
  cbn [accelQueue set_gyroQueue set_tun].
  destruct (accelQueue st) as [|a aq]; [cbn; auto 10|].
  unfold integrate, integrate_bias, corrected_rates.
  cbn [tun AttitudeActual set_accelQueue set_gyroQueue set_tun].
  destruct (accel_err_of _ a) as [[e0 e1] e2].
  destruct b as [[c0 c1] c2]. destruct (gyro_bias (tun st)) as [[b0 b1] b2].
  cbn. auto 10.
Qed.
End BiasWriters.

(** ** The estimator loop *)

Section EstimatorLoop.
Context {F : Type} {FA : FloatArith F}.
Variable Quaternion2RPY : quat F -> vec3 F.
Implicit Types st : state F.

(** X7.  The two queues are read in order: with a sample on the gyro
    queue and none on the accel queue, the step takes the gyro sample,
    which is lost, and returns -1 with the alarm at ERROR and the attitude
    as it was. *)
Theorem timeout_loses_gyro_sample diff_us st g gq :
  gyroQueue st = g :: gq ->
  accelQueue st = [] ->
  let '(r, st') := updateAttitudeComplimentary Quaternion2RPY diff_us st in
  r = (-1)%Z /\ gyroQueue st' = gq /\ accelQueue st' = [] /\
  AttitudeActual st' = AttitudeActual st /\
  alarm_ATTITUDE st' = SYSTEMALARMS_ALARM_ERROR.
Proof.
  intros Hg Ha. unfold updateAttitudeComplimentary, xQueueReceive.
  rewrite Hg. cbn [accelQueue set_gyroQueue]. rewrite Ha. cbn.
  rewrite Ha. auto 10.
Qed.

Lemma turn_without_gyro d st :
  gyroQueue st = [] ->
  let st' := AttitudeTask_turn Quaternion2RPY d st in
  gyroQueue st' = [] /\ accelQueue st' = accelQueue st /\
  AttitudeActual st' = AttitudeActual st /\ tun st' = tun st /\
  wdg_ATTITUDE st' = S (wdg_ATTITUDE st) /\
  alarm_ATTITUDE st' = SYSTEMALARMS_ALARM_ERROR.
Proof.
  intros Hg. unfold AttitudeTask_turn, updateAttitudeComplimentary, xQueueReceive.
  rewrite Hg. cbn. auto 10.
Qed.

(** The loop with nothing on the gyro queue. *)
Lemma loop_without_gyro clock st :
  gyroQueue st = [] ->
  let st' := AttitudeTask_loop Quaternion2RPY clock st in
  AttitudeActual st' = AttitudeActual st /\ tun st' = tun st /\
  accelQueue st' = accelQueue st /\
  wdg_ATTITUDE st' = (wdg_ATTITUDE st + length clock)%nat /\
  (clock <> [] -> alarm_ATTITUDE st' = SYSTEMALARMS_ALARM_ERROR) /\
  (clock = [] -> alarm_ATTITUDE st' = alarm_ATTITUDE st).
Proof.
  revert st. induction clock as [|d clock IH]; intros st Hg.
  - cbn. repeat split; auto. now intros [].
  - cbn [AttitudeTask_loop length].
    destruct (turn_without_gyro d st Hg) as (Hg1 & Ha1 & Hq1 & Ht1 & Hw1 & Hal1).
    destruct (IH _ Hg1) as (Hq & Ht & Ha & Hw & Hal & Hal').
    cbv zeta. rewrite Hq, Ht, Ha, Hw, Hq1, Ht1, Ha1, Hw1.
    repeat split; try lia; try discriminate. intros _.
    destruct clock as [|d' clock]; [now rewrite Hal'|]. now apply Hal.
Qed.

Lemma turn_with_samples d st g gq a aq :
  gyroQueue st = g :: gq -> accelQueue st = a :: aq ->
  let st' := AttitudeTask_turn Quaternion2RPY d st in
  gyroQueue st' = gq /\ accelQueue st' = aq /\
  wdg_ATTITUDE st' = S (wdg_ATTITUDE st) /\
  alarm_ATTITUDE st' = SYSTEMALARMS_ALARM_OK.
Proof.
  intros Hg Ha. unfold AttitudeTask_turn, updateAttitudeComplimentary, xQueueReceive.
  rewrite Hg. cbn [accelQueue set_gyroQueue]. rewrite Ha.
  destruct (integrate _ _ _ _ _) as [tu q]. cbn. auto.
Qed.

(** X9.  With as many samples on each queue as there are turns, every
    turn of the estimator loop takes the oldest sample of each queue: the
    queues end that many samples shorter, the watchdog flag is stroked once
    a turn and the alarm ends cleared. *)
Theorem fed_estimator_takes_one_pair_a_turn clock st :
  (length clock <= length (gyroQueue st))%nat ->
  (length clock <= length (accelQueue st))%nat ->
  let st' := AttitudeTask_loop Quaternion2RPY clock st in
  gyroQueue st' = skipn (length clock) (gyroQueue st) /\
  accelQueue st' = skipn (length clock) (accelQueue st) /\
  wdg_ATTITUDE st' = (wdg_ATTITUDE st + length clock)%nat /\
  (clock <> [] -> alarm_ATTITUDE st' = SYSTEMALARMS_ALARM_OK).
Proof.
  revert st. induction clock as [|d clock IH]; intros st Hg Ha.
  - cbn. repeat split; auto. now intros [].
  - cbn [AttitudeTask_loop length] in *.
    destruct (gyroQueue st) as [|g gq] eqn:Egq; [cbn in Hg; lia|].
    destruct (accelQueue st) as [|a aq] eqn:Eaq; [cbn in Ha; lia|].
    destruct (turn_with_samples d st g gq a aq Egq Eaq) as (Hg1 & Ha1 & Hw1 & Hal1).
    cbn [length] in Hg, Ha.
    destruct (IH (AttitudeTask_turn Quaternion2RPY d st)) as (Hgq & Haq & Hw & Hal);
      [rewrite Hg1; lia|rewrite Ha1; lia|].
    cbv zeta. rewrite Hgq, Haq, Hw, Hg1, Ha1, Hw1. cbn [skipn].
    repeat split; try lia. intros _.
    destruct clock as [|d' clock]; [exact Hal1|]. now apply Hal.
Qed.
End EstimatorLoop.

(** ** The magnetometer *)

Section Mag.
Context {F : Type} {FA : FloatArith F}.
Variable Quaternion2RPY : quat F -> vec3 F.
Implicit Types st : state F.

Lemma update_Magnetometer diff_us st :
  Magnetometer (snd (updateAttitudeComplimentary Quaternion2RPY diff_us st))
  = Magnetometer st /\
  hmc5883 (snd (updateAttitudeComplimentary Quaternion2RPY diff_us st))
  = hmc5883 st.
Proof.
  unfold updateAttitudeComplimentary, xQueueReceive.
  destruct (gyroQueue st) as [|g gq]; [now cbn|].
  cbn [accelQueue set_gyroQueue].
  destruct (accelQueue st) as [|a aq]; [now cbn|].
  destruct (integrate _ _ _ _ _) as [tu q]. now cbn.
Qed.

(** X10.  A completed tick polls the magnetometer once: with new data
    [(v0, v1, v2)] it sets the magnetometer object to [(-v0, -v1, -v2)],
    without new data it leaves the object as it was; the estimator loop
    never writes the object nor polls the sensor. *)
Theorem magnetometer_is_negated st r st' :
  updateSensors st = Ret r st' ->
  match hmc5883 st with
  | Some (v0, v1, v2) :: later =>
      Magnetometer st'
      = {| Mag_x := of_int (- v0); Mag_y := of_int (- v1); Mag_z := of_int (- v2) |} /\
      hmc5883 st' = later
  | None :: later => Magnetometer st' = Magnetometer st /\ hmc5883 st' = later
  | [] => Magnetometer st' = Magnetometer st /\ hmc5883 st' = []
  end /\
  forall clock,
    Magnetometer (AttitudeTask_loop Quaternion2RPY clock st') = Magnetometer st' /\
    hmc5883 (AttitudeTask_loop Quaternion2RPY clock st') = hmc5883 st'.
Proof.
  intros H. split.
  - apply updateSensors_Ret in H as (_ & st1 & st2 & Ha & Hg & ->).
    apply update_accels_frame2 in Ha as (_ & Hh1 & Hm1 & _).
    apply update_gyros_frame in Hg as (_ & _ & _ & Hh2 & Hm2 & _).
    rewrite <- Hh1, <- Hh2, <- Hm1, <- Hm2. unfold read_mag.
    destruct (hmc5883 st2) as [|[[[v0 v1] v2]|] later] eqn:Hh; cbn; auto.
  - clear H. generalize st' as s. intros s clock. revert s.
    induction clock as [|d clock IH]; intros s; [now cbn|].
    cbn [AttitudeTask_loop]. destruct (IH (AttitudeTask_turn Quaternion2RPY d s))
      as [-> ->].
    unfold AttitudeTask_turn. destruct (update_Magnetometer d s) as [Hm Hh].
    destruct (updateAttitudeComplimentary Quaternion2RPY d s) as [r1 s1].
    cbn in *. auto.
Qed.
End Mag.

(** ** The settings callback *)

Section Settings.
Context {F : Type} {FA : FloatArith F}.
Variable RPY2Quaternion : vec3 F -> quat F.
Variable Quaternion2R : quat F -> mat3 F.
Implicit Types st : state F.

Lemma settingsUpdatedCb_frame st :
  let st' := settingsUpdatedCb RPY2Quaternion Quaternion2R st in
  AttitudeSettings st' = AttitudeSettings st /\
  gyroQueue st' = gyroQueue st /\ accelQueue st' = accelQueue st /\
  AttitudeActual st' = AttitudeActual st /\
  alarm_ATTITUDE st' = alarm_ATTITUDE st /\
  bma180_fifo st' = bma180_fifo st /\ mpu6000_fifo st' = mpu6000_fifo st /\
  FlightStatus st' = FlightStatus st.
Proof.
  unfold settingsUpdatedCb.
  destruct (GyroBias (AttitudeSettings st)) as [[g0 g1] g2].
  destruct (BoardRotation (AttitudeSettings st)) as [[r0 r1] r2].
  cbn. auto 10.
Qed.

(** X11.  The callback sets every tuning variable from the settings
    object alone: the gyro bias learnt so far is forgotten, whatever it
    was, and so are the gains a turn of the sensor task had forced; running
    the callback again changes nothing more. *)
Theorem settings_update_forgets_learnt_bias st st_ :
  AttitudeSettings st = AttitudeSettings st_ ->
  let cb := settingsUpdatedCb RPY2Quaternion Quaternion2R in
  tun (cb st) = tun (cb st_) /\
  (let '(g0, g1, g2) := GyroBias (AttitudeSettings st) in
   gyro_bias (tun (cb st))
   = (of_int g0 / of_lit 100, of_int g1 / of_lit 100, of_int g2 / of_lit 100)%flt) /\
  gains (tun (cb st))
  = (AccelKp (AttitudeSettings st), AccelKi (AttitudeSettings st),
     YawBiasRate (AttitudeSettings st)) /\
  cb (cb st) = cb st.
Proof.
  intros Hs cb. unfold cb, settingsUpdatedCb. rewrite <- Hs.
  destruct (GyroBias (AttitudeSettings st)) as [[g0 g1] g2] eqn:Hg.
  destruct (BoardRotation (AttitudeSettings st)) as [[r0 r1] r2] eqn:Hr.
  cbn [tun set_tun gyro_bias AttitudeSettings gains accelKp accelKi yawBiasRate].
  rewrite Hg, Hr. cbn. auto.
Qed.
End Settings.

(** ** The loop of the sensor task *)

Section SensorLoop.
Context {F : Type} {FA : FloatArith F}.
Implicit Types st : state F.

(** What a turn carries over. *)
Lemma SensorTask_turn_frame t1 t2 init st init' st' :
  SensorTask_turn t1 t2 init st = Ret init' st' ->
  AttitudeSettings st' = AttitudeSettings st /\
  wdg_SENSORS st' = S (wdg_SENSORS st) /\
  alarm_ATTITUDE st' = SYSTEMALARMS_ALARM_OK /\
  exists st1, select_gains t1 t2 init st = (init', st1) /\
              gains (tun st') = gains (tun st1).
Proof.
  intros H. destruct (sensor_turn_clears_alarm_aux t1 t2 init st init' st' H)
    as (Hal & Hw). revert H. unfold SensorTask_turn.
  destruct (select_gains t1 t2 init st) as [i1 st1] eqn:Hsel.
  pose proof (select_gains_frame t1 t2 init st) as Hf.
  rewrite Hsel in Hf. cbn [snd] in Hf. destruct Hf as (_ & _ & _ & _ & Hset & _).
  destruct (updateSensors st1) as [r st2|st2] eqn:Hu; [|discriminate].
  intros H. injection H as <- <-.
  assert (Hs2 : AttitudeSettings st2 = AttitudeSettings st1).
  { apply updateSensors_Ret in Hu as (_ & s1 & s2 & Ha & Hg & ->).
    apply update_accels_inv in Ha as (? & ? & ? & ? & _ & ->).
    apply update_gyros_inv in Hg as (? & ? & ? & ? & _ & ->). cbv zeta.
    unfold read_mag, send_gyros, send_accels, xQueueSendToBack.
    cbn -[Nat.ltb averages accels_of gyros_of bias_corrected yaw_bias_leak].
    repeat match goal with |- context [(length ?q <? ?n)%nat] =>
      destruct (length q <? n)%nat end;
    cbn -[averages accels_of gyros_of bias_corrected yaw_bias_leak];
    match goal with |- context [hmc5883 ?s] =>
      destruct (hmc5883 s) as [|[[[v0 v1] v2]|] later] end; reflexivity. }
  split; [|split; [exact Hw|split; [exact Hal|]]].
  - rewrite <- Hset, <- Hs2. now destruct (r =? 0)%Z.
  - exists st1. split; [reflexivity|].
    rewrite <- (updateSensors_gains st1 r st2 Hu). now destruct (r =? 0)%Z.
Qed.

Lemma nominal_select t1 t2 flightStatus init st :
  nominal_turn (t1, t2, flightStatus) ->
  select_gains t1 t2 init (set_FlightStatus flightStatus st)
  = if (init =? 0)%Z
    then (1%Z, set_tun (reload_gains (AttitudeSettings st) (tun st))
                 (set_FlightStatus flightStatus st))
    else (init, set_FlightStatus flightStatus st).
Proof.
  intros [Hw Harm]. unfold select_gains. rewrite Hw.
  cbn [FlightStatus set_FlightStatus tun]. rewrite Harm, andb_false_r.
  reflexivity.
Qed.

(** X12.  Turns out of the bootstrap window that do not find the craft
    arming: the first reads the three gains from the settings and sets
    [init], the following ones read them no more and keep them; a loop of
    such turns that completes has stroked the watchdog flag once a turn and
    leaves the alarm cleared. *)
Theorem nominal_loop_reads_settings_once turns init st init' st' :
  Forall nominal_turn turns ->
  turns <> [] ->
  (init = 0 \/ init = 1)%Z ->
  SensorTask_loop turns init st = Ret init' st' ->
  init' = 1%Z /\
  gains (tun st')
  = (if (init =? 0)%Z
     then (AccelKp (AttitudeSettings st), AccelKi (AttitudeSettings st),
           YawBiasRate (AttitudeSettings st))
     else gains (tun st)) /\
  wdg_SENSORS st' = (wdg_SENSORS st + length turns)%nat /\
  alarm_ATTITUDE st' = SYSTEMALARMS_ALARM_OK.
Proof.
  intros Hall. revert init st.
  induction Hall as [|[[t1 t2] f] turns Hnom Hall IH]; intros init st Hne Hinit;
    [now elim Hne|].
  cbn [SensorTask_loop length].
  destruct (SensorTask_turn t1 t2 init (set_FlightStatus f st)) as [i1 st1|st1]
    eqn:Hturn; [|discriminate].
  destruct (SensorTask_turn_frame _ _ _ _ _ _ Hturn)
    as (Hset & Hw & Hal & s1 & Hsel & Hgains).
  rewrite (nominal_select t1 t2 f init st Hnom) in Hsel.
  assert (Hstep : i1 = 1%Z /\
            gains (tun st1)
            = (if (init =? 0)%Z
               then (AccelKp (AttitudeSettings st), AccelKi (AttitudeSettings st),
                     YawBiasRate (AttitudeSettings st))
               else gains (tun st))).
  { destruct Hinit as [-> | ->]; cbn [Z.eqb] in *; injection Hsel as <- <-;
      (split; [reflexivity|]); rewrite Hgains; reflexivity. }
  destruct Hstep as [-> Hg1].
  destruct turns as [|t turns].
  - cbn [SensorTask_loop length]. intros H. injection H as <- <-.
    cbn [wdg_SENSORS set_FlightStatus] in Hw. repeat split; auto; lia.
  - intros Hloop.
    destruct (IH 1%Z st1 ltac:(discriminate) ltac:(now right) Hloop)
      as (Hi & Hg & Hwd & Halarm).
    cbn [Z.eqb] in Hg. cbn [wdg_SENSORS set_FlightStatus] in Hw.
    repeat split; auto; [congruence|cbn [length] in *; lia].
Qed.
End SensorLoop.

(** ** The estimator task without samples *)

Section Starved.
Context {F : Type} {FA : FloatArith F}.
Variable Quaternion2RPY : quat F -> vec3 F.
Variable RPY2Quaternion : vec3 F -> quat F.
Variable Quaternion2R : quat F -> mat3 F.
Implicit Types st : state F.

(** X8.  With nothing on the gyro queue the estimator task goes on turn
    after turn: its prologue clears the alarm and loads the tuning
    variables from the settings; then, whatever the clock, the attitude,
    the tuning variables and the accel queue stay as they are, the
    watchdog flag is stroked once a turn, and the alarm is at ERROR from
    the first turn on. *)
Theorem starved_estimator_keeps_turning clock st :
  gyroQueue st = [] ->
  let st' := AttitudeTask Quaternion2RPY RPY2Quaternion Quaternion2R clock st in
  AttitudeActual st' = AttitudeActual st /\
  tun st' = tun (settingsUpdatedCb RPY2Quaternion Quaternion2R st) /\
  accelQueue st' = accelQueue st /\
  wdg_ATTITUDE st' = (wdg_ATTITUDE st + length clock)%nat /\
  alarm_ATTITUDE st'
  = match clock with
    | [] => SYSTEMALARMS_ALARM_OK
    | _ :: _ => SYSTEMALARMS_ALARM_ERROR
    end.
Proof.
  intros Hg. unfold AttitudeTask.
  set (st0 := settingsUpdatedCb RPY2Quaternion Quaternion2R (AlarmsClear st)).
  destruct (settingsUpdatedCb_frame RPY2Quaternion Quaternion2R (AlarmsClear st))
    as (_ & Hgq & Haq & Hatt & Hal & _). fold st0 in Hgq, Haq, Hatt, Hal.
  assert (Hw : wdg_ATTITUDE st0 = wdg_ATTITUDE st /\
               tun st0 = tun (settingsUpdatedCb RPY2Quaternion Quaternion2R st)).
  { unfold st0, settingsUpdatedCb. cbn [AttitudeSettings AlarmsClear set_alarm_ATTITUDE].
    destruct (GyroBias (AttitudeSettings st)) as [[g0 g1] g2].
    destruct (BoardRotation (AttitudeSettings st)) as [[r0 r1] r2]. now cbn. }
  destruct Hw as [Hw Htun].
  destruct (loop_without_gyro Quaternion2RPY clock st0) as (Hq & Ht & Ha & Hwd & He & Ho).
  { rewrite Hgq. exact Hg. }
  cbv zeta. rewrite Hq, Ht, Ha, Hwd, Hatt, Haq, Htun, Hw.
  repeat split. destruct clock as [|d clock].
  - rewrite Ho by reflexivity. exact Hal.
  - now apply He.
Qed.
End Starved.

(** ** From the sensors to the estimator *)

Section RoundTrip.
Context {F : Type} {FA : FloatArith F}.
Variable Quaternion2RPY : quat F -> vec3 F.
Implicit Types st : state F.
Local Open Scope float_scope.

(** X13.  From empty queues, a completed tick leaves one sample on each
    queue, and the step of the estimator that follows takes both: it
    returns 0, integrates the accelerometer object of the tick and the
    gyro sample before its bias correction, leaves both queues empty and
    clears the alarm. *)
Theorem tick_feeds_next_step st r st1 diff_us :
  gyroQueue st = [] ->
  accelQueue st = [] ->
  updateSensors st = Ret r st1 ->
  exists g st2,
    Gyros st1 = bias_corrected (tun st) g /\
    updateAttitudeComplimentary Quaternion2RPY diff_us st1 = (0%Z, st2) /\
    (let dT := of_int diff_us / of_lit 1000000 in
     quat_of (AttitudeActual st2)
     = renormalize
         (snd (integrate (tun st1) (quat_of (AttitudeActual st)) g (Accels st1) dT))) /\
    gyroQueue st2 = [] /\ accelQueue st2 = [] /\
    alarm_ATTITUDE st2 = SYSTEMALARMS_ALARM_OK.
Proof.
  intros Hg Ha H.
  destruct (updateSensors_queues st r st1 H) as (Haq & (g & Hgq & HG) & _ & Hatt).
  rewrite Ha in Haq. rewrite Hg in Hgq. cbn in Haq, Hgq.
  destruct (update_with_samples Quaternion2RPY diff_us st1 g [] (Accels st1) []
              Hgq Haq) as (st2 & Hret & _ & Hq & Hal & Hgq2 & Haq2).
  exists g, st2. rewrite Hatt in Hq. auto 10.
Qed.
End RoundTrip.

(** ** The averages of a tick *)

Section Means.
Context {F : Type} {FA : FloatArith F}.
Implicit Types st : state F.
Local Open Scope float_scope.

(** X14.  A tick that reads several accelerometer samples, fewer than
    65536 of them, each within 16 bits: the accelerometer object is built
    from the sums over the samples divided by their number, [y] for [x],
    [x] for [y] and [z] negated, less the bias, times the scale; the
    temperature is that of the last sample alone. *)
Theorem accel_object_is_mean st k first samples later :
  Forall bma_in_range (first :: samples) ->
  (Z.of_nat (length samples) < 65535)%Z ->
  bma180_fifo st = repeat None k ++ map Some (first :: samples) ++ None :: later ->
  exists st1,
    update_accels st = Some st1 /\
    bma180_fifo st1 = later /\
    let n := Z.of_nat (length (first :: samples)) in
    let '(b0, b1, b2) := accelbias (tun st) in
    Accels st1
    = {| Accels_x := (of_int (sum_of bma_y (first :: samples)) / of_int n - of_int b0)
                     * bma180_scale st;
         Accels_y := (of_int (sum_of bma_x (first :: samples)) / of_int n - of_int b1)
                     * bma180_scale st;
         Accels_z := ((- of_int (sum_of bma_z (first :: samples))) / of_int n
                      - of_int b2) * bma180_scale st;
         Accels_temperature :=
           of_lit 25 + (of_int (bma_temperature (last samples first)) - of_lit 2)
                       / of_lit 2 |}.
Proof.
  intros Hall Hlen Hfifo. unfold update_accels, read_fifo.
  rewrite Hfifo, spin_read_blank. cbn [map app spin_read].
  pose proof (drain_fifo_sums bma_axes later samples first 0 0 0 0)%Z as Hd.
  pose proof (drain_fifo_last bma_axes later samples first 0%Z (0, 0, 0)%Z) as Hl.
  destruct (drain_fifo bma_axes (map Some samples ++ None :: later) first 0
              (0, 0, 0)%Z) as [[[cur count] accum] rest].
  cbn [fst] in Hl. subst cur.
  destruct Hd as (-> & -> & ->); try (cbn; lia).
  { eapply Forall_impl; [|exact Hall]. intros s (Hx & Hy & Hz). now cbn. }
  eexists. split; [reflexivity|].
  match goal with |- context [send_accels ?a ?s] =>
    destruct (send_accels_queue a s) as (_ & _ & ->);
    assert (Hb : bma180_fifo (send_accels a s) = later)
      by (unfold send_accels, xQueueSendToBack;
          match goal with |- context [(length ?q <? ?n)%nat] =>
            destruct (length q <? n)%nat end; reflexivity) end.
  split; [exact Hb|]. clear Hb.
  cbn [Accels set_Accels tun set_bma180_fifo bma180_scale length].
  rewrite MachIntFacts.uint32_small by lia.
  replace (0 + Z.of_nat (length samples) + 1)%Z
    with (Z.of_nat (S (length samples))) by lia.
  unfold averages, accels_of. cbn [Z.add].
  destruct (accelbias (tun st)) as [[b0 b1] b2]. reflexivity.
Qed.
End Means.

(** ** A gyro bias that is not a number *)

Section NanBias.
Import Binary32 Binary32Facts.
Local Open Scope float_scope.
Implicit Types st : state Binary32.t.

Lemma add_nan_l x : add S754_nan x = S754_nan.
Proof. now destruct x. Qed.

Lemma update_nan_bias (Quaternion2RPY : quat Binary32.t -> vec3 Binary32.t)
    diff_us st b1 b2 :
  gyro_bias (tun st) = (S754_nan, b1, b2) ->
  exists c1,
    gyro_bias (tun (snd (updateAttitudeComplimentary Quaternion2RPY diff_us st)))
    = (S754_nan, c1, b2).
Proof.
  intros Hb. unfold updateAttitudeComplimentary, xQueueReceive.
  destruct (gyroQueue st) as [|g gq]; [exists b1; exact Hb|].
  cbn [accelQueue set_gyroQueue].
  destruct (accelQueue st) as [|a aq]; [exists b1; exact Hb|].
  unfold integrate, integrate_bias. cbn [tun set_accelQueue set_gyroQueue].
  destruct (accel_err_of _ a) as [[e0 e1] e2]. rewrite Hb.
  eexists. cbn [snd tun AlarmsClear set_alarm_ATTITUDE set_AttitudeActual set_tun
                gyro_bias tun_set_gyro_bias fadd binary32].
  now rewrite add_nan_l.
Qed.

(** X20.  In single precision a gyro bias whose first component is NaN
    stays so: the estimator loop, however long it runs, and a completed
    tick of the sensors leave it NaN, and with the bias correction on the
    tick publishes a NaN rate about x. *)
Theorem nan_bias_is_absorbing st b1 b2 :
  gyro_bias (tun st) = (S754_nan, b1, b2) ->
  (forall Quaternion2RPY clock, exists c1,
     gyro_bias (tun (AttitudeTask_loop Quaternion2RPY clock st))
     = (S754_nan, c1, b2)) /\
  (forall r st', updateSensors st = Ret r st' ->
     (exists c2, gyro_bias (tun st') = (S754_nan, b1, c2)) /\
     (bias_correct_gyro (tun st) = true -> Gyros_x (Gyros st') = S754_nan)).
Proof.
  intros Hb. split.
  - intros Q clock. revert st b1 Hb.
    induction clock as [|d clock IH]; intros st b1 Hb; [now exists b1|].
    cbn [AttitudeTask_loop]. destruct (update_nan_bias Q d st b1 b2 Hb) as [c1 Hc].
    apply (IH _ c1). unfold AttitudeTask_turn.
    destruct (updateAttitudeComplimentary Q d st) as [r st1]. exact Hc.
  - intros r st' H. split.
    + pose proof (updateSensors_tun st r st' H) as Ht. rewrite Hb in Ht.
      rewrite Ht. eexists. reflexivity.
    + intros Hon.
      destruct (updateSensors_queues st r st' H) as (_ & (raw & _ & ->) & _).
      unfold bias_corrected. rewrite Hon, Hb. cbn [Gyros_x fadd binary32].
      apply add_nan_r.
Qed.

(** A 16-bit setting over 100 is a finite float. *)
Lemma centi_int16_finite z :
  MachInt.in_int16 z -> is_finite (div (of_Z z) (of_Q 100)) = true.
Proof.
  intros Hz.
  apply (forall_Zrange (fun z => is_finite (div (of_Z z) (of_Q 100))) (-32768) 65536).
  - vm_compute. reflexivity.
  - unfold MachInt.in_int16 in Hz. lia.
Qed.

(** X21.  In single precision the settings callback brings the gyro bias
    back to finite values, whatever it was: for settings within 16 bits
    its three components are finite floats. *)
Theorem settings_update_restores_bias RPY2Quaternion Quaternion2R st :
  (let '(g0, g1, g2) := GyroBias (AttitudeSettings st) in
   MachInt.in_int16 g0 /\ MachInt.in_int16 g1 /\ MachInt.in_int16 g2) ->
  let '(b0, b1, b2) :=
    gyro_bias (tun (settingsUpdatedCb RPY2Quaternion Quaternion2R st)) in
  is_finite b0 = true /\ is_finite b1 = true /\ is_finite b2 = true.
Proof.
  unfold settingsUpdatedCb.
  destruct (GyroBias (AttitudeSettings st)) as [[g0 g1] g2].
  destruct (BoardRotation (AttitudeSettings st)) as [[r0 r1] r2].
  intros (H0 & H1 & H2). cbn [tun set_tun gyro_bias].
  repeat split; now apply centi_int16_finite.
Qed.
End NanBias.

(** ** The self-test *)

Section SelfTest.
Context {F : Type} {FA : FloatArith F}.
Variable Quaternion2RPY : quat F -> vec3 F.
Implicit Types st : state F.

Lemma idle_frame n st :
  let st' := Nat.iter n stroke_SENSORS st in
  wdg_SENSORS st' = (wdg_SENSORS st + n)%nat /\
  gyroQueue st' = gyroQueue st /\ accelQueue st' = accelQueue st /\
  bma180_fifo st' = bma180_fifo st /\ mpu6000_fifo st' = mpu6000_fifo st /\
  alarm_ATTITUDE st' = alarm_ATTITUDE st /\
  AttitudeActual st' = AttitudeActual st /\ Accels st' = Accels st /\
  Gyros st' = Gyros st /\ tun st' = tun st.
Proof.
  induction n as [|n IH]; cbv zeta in *;
    [cbn; repeat split; auto with arith|].
  rewrite Nat.iter_succ.
  destruct IH as (Hw & Hg & Ha & Hb & Hm & Hal & Hq & HA & HG & Ht).
  unfold stroke_SENSORS at 1.
  cbn [wdg_SENSORS gyroQueue accelQueue bma180_fifo mpu6000_fifo alarm_ATTITUDE
       AttitudeActual Accels Gyros tun set_wdg_SENSORS].
  rewrite Hw. repeat split; auto; lia.
Qed.

(** X22.  When one of the three self-tests fails, the sensor task raises
    the SENSORS alarm to CRITICAL and never enters its main loop: it
    strokes its watchdog flag turn after turn and touches neither a FIFO
    nor a queue nor a sensor object; so with an empty gyro queue every turn
    of the estimator loop times out, the attitude staying as it was. *)
Theorem failed_self_test_idles accel_test gyro_test mag_test idle turns st :
  (accel_test < 0 \/ gyro_test < 0 \/ mag_test < 0)%Z ->
  exists st',
    SensorTask accel_test gyro_test mag_test idle turns st
    = Idling SYSTEMALARMS_ALARM_CRITICAL st' /\
    wdg_SENSORS st' = (wdg_SENSORS st + idle)%nat /\
    gyroQueue st' = gyroQueue st /\ accelQueue st' = accelQueue st /\
    bma180_fifo st' = bma180_fifo st /\ mpu6000_fifo st' = mpu6000_fifo st /\
    Accels st' = Accels st /\ Gyros st' = Gyros st /\
    (gyroQueue st = [] ->
     forall d clock,
       let st'' := AttitudeTask_loop Quaternion2RPY (d :: clock) st' in
       AttitudeActual st'' = AttitudeActual st /\
       alarm_ATTITUDE st'' = SYSTEMALARMS_ALARM_ERROR).
Proof.
  intros Hfail. unfold SensorTask.
  replace ((accel_test <? 0) || (gyro_test <? 0) || (mag_test <? 0))%Z with true
    by (symmetry; destruct (Z.ltb_spec accel_test 0), (Z.ltb_spec gyro_test 0),
          (Z.ltb_spec mag_test 0); cbn; try reflexivity; lia).
  eexists. split; [reflexivity|].
  destruct (idle_frame idle st) as (Hw & Hg & Ha & Hb & Hm & Hal & Hq & HA & HG & Ht).
  repeat (split; [assumption|]).
  intros Hempty d clock.
  destruct (loop_without_gyro Quaternion2RPY (d :: clock) _ (eq_trans Hg Hempty))
    as (Hatt & _ & _ & _ & Herr & _).
  cbv zeta. rewrite Hatt, Hq. split; [reflexivity|]. now apply Herr.
Qed.
End SelfTest.

Lemma failed_self_test_idles_witness :
  exists st',
    SensorTask 0 (-1) 0 5 [] Scenario.starved = Idling SYSTEMALARMS_ALARM_CRITICAL st' /\
    wdg_SENSORS st' = 5%nat /\
    alarm_ATTITUDE (AttitudeTask_loop Scenario.no_rpy [2000%Z] st')
    = SYSTEMALARMS_ALARM_ERROR.
Proof.
  destruct (failed_self_test_idles Scenario.no_rpy 0 (-1) 0 5 [] Scenario.starved
              ltac:(lia)) as (st' & Hret & Hw & _ & _ & _ & _ & _ & _ & Hloop).
  exists st'. split; [exact Hret|]. split; [exact Hw|].
  exact (proj2 (Hloop eq_refl 2000%Z [])).
Defined.

(** ** Instances of the further properties *)

Lemma queues_stay_bounded_witness :
  queues_bounded Case.crowded /\
  match updateSensors Case.crowded with
  | Ret _ st' | Hang st' => queues_bounded st'
  end.
Proof.
  assert (H : queues_bounded Case.crowded)
    by (split; apply Nat.leb_le; vm_compute; reflexivity).
  split; [exact H|].
  exact (proj1 (queues_stay_bounded Scenario.no_rpy Case.crowded H)).
Defined.

Lemma full_queue_drops_sample_witness :
  exists st',
    updateSensors Case.crowded = Ret 0%Z st' /\
    alarm_ATTITUDE st' = SYSTEMALARMS_ALARM_WARNING /\
    accelQueue st' = accelQueue Case.crowded /\
    gyroQueue st' = gyroQueue Case.crowded.
Proof.
  eexists. split; [vm_compute; reflexivity|].
  assert (Hfull : (SENSOR_QUEUE_SIZE <= length (accelQueue Case.crowded))%nat)
    by (apply Nat.leb_le; vm_compute; reflexivity).
  assert (Hfull' : (SENSOR_QUEUE_SIZE <= length (gyroQueue Case.crowded))%nat)
    by (apply Nat.leb_le; vm_compute; reflexivity).
  destruct (full_queue_drops_sample Case.crowded 0%Z _ (or_introl Hfull)
              ltac:(vm_compute; reflexivity)) as (Hal & Ha & Hg & _).
  split; [exact Hal|]. split; [exact (Ha Hfull)|exact (Hg Hfull')].
Defined.

Lemma room_in_queues_appends_witness :
  exists st',
    updateSensors Scenario.one_of_each = Ret 0%Z st' /\
    accelQueue st' = [Accels st'] /\
    alarm_ATTITUDE st' = SYSTEMALARMS_ALARM_OK.
Proof.
  eexists. split; [vm_compute; reflexivity|].
  destruct (room_in_queues_appends Scenario.one_of_each 0%Z _
              ltac:(apply Nat.ltb_lt; vm_compute; reflexivity)
              ltac:(apply Nat.ltb_lt; vm_compute; reflexivity)
              ltac:(vm_compute; reflexivity)) as (Ha & _ & Hal).
  split; [exact Ha|exact Hal].
Defined.

Lemma sensor_turn_clears_alarm_witness :
  exists init' st',
    SensorTask_turn 8000 8000 0 Case.crowded = Ret init' st' /\
    alarm_ATTITUDE st' = SYSTEMALARMS_ALARM_OK /\
    accelQueue st' = accelQueue Case.crowded.
Proof.
  eexists _, _. split; [vm_compute; reflexivity|].
  destruct (sensor_turn_clears_alarm 8000 8000 0 Case.crowded _ _
              ltac:(vm_compute; reflexivity)) as (Hal & _ & Ha & _).
  split; [exact Hal|]. apply Ha. vm_compute. reflexivity.
Defined.

Lemma bias_writers_are_disjoint_witness :
  exists st',
    updateSensors Scenario.turning = Ret 0%Z st' /\
    exists bz, tun st' = tun_set_gyro_bias (of_int 1, of_int 1, bz) (tun Scenario.turning).
Proof.
  eexists. split; [vm_compute; reflexivity|].
  pose proof (bias_writers_are_disjoint Scenario.no_rpy Scenario.turning) as H.
  cbn [Scenario.turning Scenario.bench tun set_tun set_mpu6000_fifo set_bma180_fifo
       gyro_bias tun_set_gyro_bias] in H.
  destruct H as [H _]. apply (H 0%Z). vm_compute. reflexivity.
Defined.

Lemma timeout_loses_gyro_sample_witness :
  gyroQueue Case.gyro_only = [Case.still] /\
  accelQueue Case.gyro_only = [] /\
  gyroQueue (snd (updateAttitudeComplimentary Scenario.no_rpy 2000 Case.gyro_only)) = [] /\
  fst (updateAttitudeComplimentary Scenario.no_rpy 2000 Case.gyro_only) = (-1)%Z.
Proof.
  split; [reflexivity|]. split; [reflexivity|].
  pose proof (timeout_loses_gyro_sample Scenario.no_rpy 2000 Case.gyro_only
                Case.still [] eq_refl eq_refl) as H.
  destruct (updateAttitudeComplimentary Scenario.no_rpy 2000 Case.gyro_only)
    as [r st'].
  destruct H as (Hr & Hg & _). split; assumption.
Defined.

Lemma starved_estimator_keeps_turning_witness :
  gyroQueue Scenario.starved = [] /\
  let st' := AttitudeTask Scenario.no_rpy (fun _ => (of_int 1, of_int 0, of_int 0, of_int 0))
               (fun _ => Scenario.quarter_turn) [2000; 2000; 2000]%Z Scenario.starved in
  wdg_ATTITUDE st' = 3%nat /\ alarm_ATTITUDE st' = SYSTEMALARMS_ALARM_ERROR.
Proof.
  split; [reflexivity|].
  destruct (starved_estimator_keeps_turning Scenario.no_rpy
              (fun _ => (of_int 1, of_int 0, of_int 0, of_int 0))
              (fun _ => Scenario.quarter_turn) [2000; 2000; 2000]%Z Scenario.starved
              eq_refl) as (_ & _ & _ & Hw & Hal).
  split; [exact Hw|exact Hal].
Defined.

Lemma fed_estimator_takes_one_pair_a_turn_witness :
  (length [2000%Z] <= length (gyroQueue Scenario.freefall))%nat /\
  (length [2000%Z] <= length (accelQueue Scenario.freefall))%nat /\
  let st' := AttitudeTask_loop Scenario.no_rpy [2000%Z] Scenario.freefall in
  gyroQueue st' = [] /\ accelQueue st' = [] /\
  alarm_ATTITUDE st' = SYSTEMALARMS_ALARM_OK.
Proof.
  assert (Hg : (length [2000%Z] <= length (gyroQueue Scenario.freefall))%nat)
    by (apply Nat.leb_le; vm_compute; reflexivity).
  assert (Ha : (length [2000%Z] <= length (accelQueue Scenario.freefall))%nat)
    by (apply Nat.leb_le; vm_compute; reflexivity).
  split; [exact Hg|]. split; [exact Ha|].
  destruct (fed_estimator_takes_one_pair_a_turn Scenario.no_rpy [2000%Z]
              Scenario.freefall Hg Ha) as (Hgq & Haq & _ & Hal).
  split; [rewrite Hgq; vm_compute; reflexivity|].
  split; [rewrite Haq; vm_compute; reflexivity|].
  apply Hal. discriminate.
Defined.

Lemma magnetometer_is_negated_witness :
  exists st',
    updateSensors Case.with_mag = Ret 0%Z st' /\
    Magnetometer st'
    = {| Mag_x := of_int (-1); Mag_y := of_int 2; Mag_z := of_int (-3) |} /\
    hmc5883 st' = [].
Proof.
  eexists. split; [vm_compute; reflexivity|].
  destruct (magnetometer_is_negated Scenario.no_rpy Case.with_mag 0%Z _
              ltac:(vm_compute; reflexivity)) as (H & _).
  exact H.
Defined.

Lemma settings_update_forgets_learnt_bias_witness :
  AttitudeSettings Scenario.turning = AttitudeSettings Scenario.starved /\
  gyro_bias (tun Scenario.turning) <> gyro_bias (tun Scenario.starved) /\
  let cb := settingsUpdatedCb (fun _ => (of_int 1, of_int 0, of_int 0, of_int 0))
              (fun _ => Scenario.quarter_turn) in
  tun (cb Scenario.turning) = tun (cb Scenario.starved).
Proof.
  split; [reflexivity|]. split; [vm_compute; discriminate|].
  exact (proj1 (settings_update_forgets_learnt_bias
                  (fun _ => (of_int 1, of_int 0, of_int 0, of_int 0))
                  (fun _ => Scenario.quarter_turn)
                  Scenario.turning Scenario.starved eq_refl)).
Defined.

Lemma nominal_loop_reads_settings_once_witness :
  let turns := [(8000, 8000, Case.disarmed); (8002, 8002, Case.disarmed)]%Z in
  Forall nominal_turn turns /\
  exists init' st',
    SensorTask_loop turns 0 Case.two_ticks = Ret init' st' /\
    init' = 1%Z /\ wdg_SENSORS st' = 2%nat.
Proof.
  assert (Hn : Forall nominal_turn
                 [(8000, 8000, Case.disarmed); (8002, 8002, Case.disarmed)]%Z)
    by (repeat constructor).
  split; [exact Hn|].
  eexists _, _. split; [vm_compute; reflexivity|].
  destruct (nominal_loop_reads_settings_once _ 0%Z Case.two_ticks _ _ Hn
              ltac:(discriminate) (or_introl eq_refl)
              ltac:(vm_compute; reflexivity)) as (Hi & _ & Hw & _).
  split; [exact Hi|exact Hw].
Defined.

Lemma tick_feeds_next_step_witness :
  exists st1 st2,
    updateSensors Scenario.one_of_each = Ret 0%Z st1 /\
    updateAttitudeComplimentary Scenario.no_rpy 2000 st1 = (0%Z, st2) /\
    gyroQueue st2 = [] /\ accelQueue st2 = [].
Proof.
  eexists.
  destruct (tick_feeds_next_step Scenario.no_rpy Scenario.one_of_each 0%Z _ 2000%Z
              eq_refl eq_refl ltac:(vm_compute; reflexivity))
    as (g & st2 & _ & Hret & _ & Hg & Ha & _).
  exists st2. split; [reflexivity|]. split; [exact Hret|]. split; assumption.
Defined.

Lemma accel_object_is_mean_witness :
  exists st1,
    update_accels Case.two_readings = Some st1 /\
    Accels_x (Accels st1)
    = fmul (fsub (fdiv (of_int 6) (of_int 2)) (of_int 0)) (of_int 1) /\
    Accels_temperature (Accels st1)
    = fadd (of_lit 25) (fdiv (fsub (of_int 4) (of_lit 2)) (of_lit 2)).
Proof.
  destruct (accel_object_is_mean Case.two_readings 1 Case.first_reading
              [Case.second_reading] []) as (st1 & Hret & _ & H).
  - repeat constructor; cbn; lia.
  - cbn. lia.
  - reflexivity.
  - exists st1. split; [exact Hret|].
    cbv zeta in H.
    cbn [Case.two_readings Scenario.bench Scenario.starved AttitudeInitialize tun
         set_tun set_bma180_fifo set_mpu6000_fifo accelbias bma180_scale] in H.
    rewrite H. split; reflexivity.
Defined.

Lemma nan_bias_is_absorbing_witness :
  exists st',
    updateSensors Case.nan_bias = Ret 0%Z st' /\
    Gyros_x (Gyros st') = S754_nan /\
    exists c1,
      gyro_bias (tun (AttitudeTask_loop Scenario.no_rpy [2000%Z] st'))
      = (S754_nan, c1, of_int 0).
Proof.
  eexists. split; [vm_compute; reflexivity|].
  destruct (nan_bias_is_absorbing Case.nan_bias (of_int 0) (of_int 0) eq_refl)
    as (_ & Htick).
  destruct (Htick 0%Z _ ltac:(vm_compute; reflexivity)) as (_ & HG).
  split; [apply HG; reflexivity|].
  match goal with |- context [AttitudeTask_loop _ _ ?s] =>
    destruct (nan_bias_is_absorbing s (Binary32.of_Z 0) (Binary32.of_Z 0) eq_refl)
      as (Hloop & _) end.
  apply Hloop.
Defined.

Lemma settings_update_restores_bias_witness :
  let '(b0, b1, b2) :=
    gyro_bias (tun (settingsUpdatedCb
                      (fun _ => (of_int 1, of_int 0, of_int 0, of_int 0))
                      (fun _ => Scenario.quarter_turn) Case.nan_bias)) in
  Binary32.is_finite b0 = true.
Proof.
  pose proof (settings_update_restores_bias
                (fun _ => (of_int 1, of_int 0, of_int 0, of_int 0))
                (fun _ => Scenario.quarter_turn) Case.nan_bias) as H.
  cbn [Case.nan_bias Scenario.bench Scenario.starved AttitudeInitialize
       AttitudeSettings set_tun set_bma180_fifo set_mpu6000_fifo zero_settings GyroBias]
    in H.
  specialize (H ltac:(unfold MachInt.in_int16; lia)).
  destruct (gyro_bias _) as [[b0 b1] b2]. exact (proj1 H).
Defined.
